(** * Interactive list picker: the incremental search/selection controller

    A shallow embedding of [src/lib/main.js].  The closure variables of the
    promise executor ([found], [count], [terms], [line], [start], [dataset],
    [loadedPages], [morePages], [loadingNextPage], [cachedResults]) become the
    fields of one record; every inner function of the executor becomes a
    function on that record.  What the executor does to the outside world
    (draft lines, stdin, the [search] collaborator, settling the promise) is
    appended to an effect log kept in the same record, so that statements of
    the form "no display update happens" or "the collaborator is called once"
    are statements about that log. *)

From stdpp Require Import gmap strings list fin_maps pretty.
From Stdlib Require Import ZArith Lia.

Local Open Scope Z_scope.

(** ** JavaScript values as far as the option checks look at them *)

(** The executor tests [data] and [search] for truthiness and asks for
    [typeof search]; nothing else of these two values is inspected. *)
Inductive jsval :=
| JUndefined
| JNull
| JBool (b : bool)
| JNum (n : Z)
| JNaN
| JStr (s : string)
| JObject          (* arrays, promises and all other objects *)
| JFunction.

Definition truthy (v : jsval) : bool :=
  match v with
  | JUndefined | JNull | JNaN => false
  | JBool b => b
  | JNum n => negb (n =? 0)
  | JStr s => negb (String.eqb s "")
  | JObject | JFunction => true
  end.

Definition typeof (v : jsval) : string :=
  match v with
  | JUndefined => "undefined"
  | JNull | JObject => "object"
  | JBool _ => "boolean"
  | JNum _ | JNaN => "number"
  | JStr _ => "string"
  | JFunction => "function"
  end.

(** An option counts as supplied when the caller's object carries it with a
    value other than [undefined]; this is also when a destructuring default
    would not apply. *)
Definition supplied (v : jsval) : bool :=
  match v with JUndefined => false | _ => true end.

(** [" ".repeat(n)]: a [RangeError] for a negative count. *)
Definition js_repeat (s : string) (n : Z) : option string :=
  if n <? 0 then None else Some (String.concat "" (replicate (Z.to_nat n) s)).

(** [Array.prototype.slice(b, e)], negative arguments counted from the end. *)
Definition js_slice {A} (l : list A) (b e : Z) : list A :=
  let len := Z.of_nat (length l) in
  let k := if b <? 0 then Z.max (len + b) 0 else Z.min b len in
  let final := if e <? 0 then Z.max (len + e) 0 else Z.min e len in
  take (Z.to_nat (final - k)) (drop (Z.to_nat k) l).

(** [l[i]] for an integer [i]: [undefined] out of range. *)
Definition js_nth {A} (l : list A) (i : Z) : option A :=
  if i <? 0 then None else l !! Z.to_nat i.

(** ** Items, queries, pages *)

(** An item is an object with a [label]; [highlight] and [index] are
    properties it may or may not carry. *)
Record item := mkItem {
  label : string;
  highlight : option (list nat);
  index : option Z }.

(** [Object.assign({}, item, { index: i })] *)
Definition withIndex (it : item) (i : Z) : item :=
  {| label := label it; highlight := highlight it; index := Some i |}.

(** The term sequence is a JavaScript array: it has an identity ([tid]),
    which is all that [!==] and the [WeakSet] look at, and contents. *)
Record termsObj := mkTerms {
  tid : nat;
  tchars : list string }.

(** [terms.join("")] *)
Definition join (t : termsObj) : string := String.concat "" (tchars t).

(** What the [search] collaborator's promise resolves to. *)
Record searchResult := mkResult {
  data : list item;
  total : Z;
  more : bool }.

(** The tuple [[loadedPages, found, count, morePages]] kept in
    [cachedResults]. *)
Record cacheEntry := mkEntry {
  c_loadedPages : nat;
  c_found : list item;
  c_count : Z;
  c_morePages : bool }.

(** One call of [search] whose promise has not settled yet, with what the
    [then] callback closes over: [_terms] (by identity), [query], [page]. *)
Record fetch := mkFetch {
  f_terms : nat;
  f_query : string;
  f_page : nat }.

Global Instance item_eq_dec : EqDecision item.
Proof. solve_decision. Defined.
Global Instance fetch_eq_dec : EqDecision fetch.
Proof. solve_decision. Defined.

(** ** Configuration *)

Record config := mkConfig {
  cfg_size : Z;
  cfg_data : jsval;
  cfg_search : jsval;
  cfg_fuzzyOnSearch : bool;
  cfg_debounceDelay : Z;
  cfg_cache : bool }.

(** ** Errors and the settled promise *)

Inductive error :=
| ErrRequired                    (* Required option "data" or "search" *)
| ErrSearchType (ty : string)    (* Option "search" must be a function ... *)
| ErrInvalidDataset              (* Invalid dataset: not an array *)
| ErrRange                       (* RangeError: Invalid count value *)
| ErrExternal (msg : string)     (* an Error from stdin or a collaborator *)
| ErrValue (v : jsval).          (* any other value given as the reason *)

(** [if (err)]: an Error object is truthy, another reason as its value. *)
Definition error_truthy (e : error) : bool :=
  match e with
  | ErrValue v => truthy v
  | _ => true
  end.

Definition is_config_error (e : error) : bool :=
  match e with ErrRequired | ErrSearchType _ => true | _ => false end.

Inductive outcome :=
| Resolved (v : option item)     (* [None] is [undefined] *)
| Rejected (e : error).

(** ** Styled text and effects *)

Inductive style := bold | dim | inverse | underline.

Inductive chalk :=
| Plain (s : string)
| Styled (st : style) (c : chalk)
| Cat (a b : chalk).

Definition cat_all (l : list chalk) : chalk := foldr Cat (Plain "") l.

Inductive effect :=
| FxInput (c : chalk)              (* updateInput(...) *)
| FxStatus (c : chalk)             (* the draft line behind updateStatus *)
| FxOutput (i : nat) (c : chalk)   (* updateOutputs[i](...) *)
| FxStdin                          (* setRawMode, resume, setEncoding, on error *)
| FxListen                         (* userInput(stdin).on(...) x 4 *)
| FxUnlisten                       (* input.removeAllListeners() *)
| FxSearch (q : string) (page : nat)   (* search(q, page) *)
| FxResolve (v : option item)
| FxReject (e : error).

Definition is_display (e : effect) : bool :=
  match e with FxInput _ | FxStatus _ | FxOutput _ _ => true | _ => false end.

Definition is_search (e : effect) : bool :=
  match e with FxSearch _ _ => true | _ => false end.

(** ** The controller state *)

Record state := mkState {
  cfg : config;
  (* the executor's variables *)
  found : list item;
  count : Z;
  terms : termsObj;
  line : Z;
  start : Z;
  dataset : option (list item);
  loadedPages : nat;
  morePages : bool;
  loadingNextPage : gset nat;
  cachedResults : gmap string cacheEntry;
  (* the variables closed over by updateStatus *)
  statusMessage : string;
  statusLoading : bool;
  (* the surroundings *)
  pending : list fetch;       (* search promises not settled yet *)
  dataPending : bool;         (* the data promise has not settled yet *)
  stdinHooked : bool;         (* stdin.on("error", ...) was installed *)
  listening : bool;           (* the four input listeners are attached *)
  settled : option outcome;   (* the returned promise *)
  timer : option Z;           (* deadline of the debounce timer *)
  clock : Z;                  (* time of the event being handled *)
  fired : list (Z * termsObj);   (* ghost: when the debounce timer expired,
                                    and the terms it found *)
  uncaught : option error;    (* an exception nobody caught *)
  effects : list effect }.    (* newest first *)

(** Assignment to one variable. *)

Definition set_found (x : list item) (s : state) : state :=
  {| cfg := cfg s; found := x; count := count s; terms := terms s;
     line := line s; start := start s; dataset := dataset s;
     loadedPages := loadedPages s; morePages := morePages s;
     loadingNextPage := loadingNextPage s; cachedResults := cachedResults s;
     statusMessage := statusMessage s; statusLoading := statusLoading s;
     pending := pending s; dataPending := dataPending s;
     stdinHooked := stdinHooked s; listening := listening s;
     settled := settled s; timer := timer s; clock := clock s;
     fired := fired s; uncaught := uncaught s; effects := effects s |}.

Definition set_count (x : Z) (s : state) : state :=
  {| cfg := cfg s; found := found s; count := x; terms := terms s;
     line := line s; start := start s; dataset := dataset s;
     loadedPages := loadedPages s; morePages := morePages s;
     loadingNextPage := loadingNextPage s; cachedResults := cachedResults s;
     statusMessage := statusMessage s; statusLoading := statusLoading s;
     pending := pending s; dataPending := dataPending s;
     stdinHooked := stdinHooked s; listening := listening s;
     settled := settled s; timer := timer s; clock := clock s;
     fired := fired s; uncaught := uncaught s; effects := effects s |}.

Definition set_terms (x : termsObj) (s : state) : state :=
  {| cfg := cfg s; found := found s; count := count s; terms := x;
     line := line s; start := start s; dataset := dataset s;
     loadedPages := loadedPages s; morePages := morePages s;
     loadingNextPage := loadingNextPage s; cachedResults := cachedResults s;
     statusMessage := statusMessage s; statusLoading := statusLoading s;
     pending := pending s; dataPending := dataPending s;
     stdinHooked := stdinHooked s; listening := listening s;
     settled := settled s; timer := timer s; clock := clock s;
     fired := fired s; uncaught := uncaught s; effects := effects s |}.

Definition set_line (x : Z) (s : state) : state :=
  {| cfg := cfg s; found := found s; count := count s; terms := terms s;
     line := x; start := start s; dataset := dataset s;
     loadedPages := loadedPages s; morePages := morePages s;
     loadingNextPage := loadingNextPage s; cachedResults := cachedResults s;
     statusMessage := statusMessage s; statusLoading := statusLoading s;
     pending := pending s; dataPending := dataPending s;
     stdinHooked := stdinHooked s; listening := listening s;
     settled := settled s; timer := timer s; clock := clock s;
     fired := fired s; uncaught := uncaught s; effects := effects s |}.

Definition set_start (x : Z) (s : state) : state :=
  {| cfg := cfg s; found := found s; count := count s; terms := terms s;
     line := line s; start := x; dataset := dataset s;
     loadedPages := loadedPages s; morePages := morePages s;
     loadingNextPage := loadingNextPage s; cachedResults := cachedResults s;
     statusMessage := statusMessage s; statusLoading := statusLoading s;
     pending := pending s; dataPending := dataPending s;
     stdinHooked := stdinHooked s; listening := listening s;
     settled := settled s; timer := timer s; clock := clock s;
     fired := fired s; uncaught := uncaught s; effects := effects s |}.

Definition set_dataset (x : option (list item)) (s : state) : state :=
  {| cfg := cfg s; found := found s; count := count s; terms := terms s;
     line := line s; start := start s; dataset := x;
     loadedPages := loadedPages s; morePages := morePages s;
     loadingNextPage := loadingNextPage s; cachedResults := cachedResults s;
     statusMessage := statusMessage s; statusLoading := statusLoading s;
     pending := pending s; dataPending := dataPending s;
     stdinHooked := stdinHooked s; listening := listening s;
     settled := settled s; timer := timer s; clock := clock s;
     fired := fired s; uncaught := uncaught s; effects := effects s |}.

Definition set_loadedPages (x : nat) (s : state) : state :=
  {| cfg := cfg s; found := found s; count := count s; terms := terms s;
     line := line s; start := start s; dataset := dataset s;
     loadedPages := x; morePages := morePages s;
     loadingNextPage := loadingNextPage s; cachedResults := cachedResults s;
     statusMessage := statusMessage s; statusLoading := statusLoading s;
     pending := pending s; dataPending := dataPending s;
     stdinHooked := stdinHooked s; listening := listening s;
     settled := settled s; timer := timer s; clock := clock s;
     fired := fired s; uncaught := uncaught s; effects := effects s |}.

Definition set_morePages (x : bool) (s : state) : state :=
  {| cfg := cfg s; found := found s; count := count s; terms := terms s;
     line := line s; start := start s; dataset := dataset s;
     loadedPages := loadedPages s; morePages := x;
     loadingNextPage := loadingNextPage s; cachedResults := cachedResults s;
     statusMessage := statusMessage s; statusLoading := statusLoading s;
     pending := pending s; dataPending := dataPending s;
     stdinHooked := stdinHooked s; listening := listening s;
     settled := settled s; timer := timer s; clock := clock s;
     fired := fired s; uncaught := uncaught s; effects := effects s |}.

Definition set_loadingNextPage (x : gset nat) (s : state) : state :=
  {| cfg := cfg s; found := found s; count := count s; terms := terms s;
     line := line s; start := start s; dataset := dataset s;
     loadedPages := loadedPages s; morePages := morePages s;
     loadingNextPage := x; cachedResults := cachedResults s;
     statusMessage := statusMessage s; statusLoading := statusLoading s;
     pending := pending s; dataPending := dataPending s;
     stdinHooked := stdinHooked s; listening := listening s;
     settled := settled s; timer := timer s; clock := clock s;
     fired := fired s; uncaught := uncaught s; effects := effects s |}.

Definition set_cachedResults (x : gmap string cacheEntry) (s : state) : state :=
  {| cfg := cfg s; found := found s; count := count s; terms := terms s;
     line := line s; start := start s; dataset := dataset s;
     loadedPages := loadedPages s; morePages := morePages s;
     loadingNextPage := loadingNextPage s; cachedResults := x;
     statusMessage := statusMessage s; statusLoading := statusLoading s;
     pending := pending s; dataPending := dataPending s;
     stdinHooked := stdinHooked s; listening := listening s;
     settled := settled s; timer := timer s; clock := clock s;
     fired := fired s; uncaught := uncaught s; effects := effects s |}.

Definition set_statusMessage (x : string) (s : state) : state :=
  {| cfg := cfg s; found := found s; count := count s; terms := terms s;
     line := line s; start := start s; dataset := dataset s;
     loadedPages := loadedPages s; morePages := morePages s;
     loadingNextPage := loadingNextPage s; cachedResults := cachedResults s;
     statusMessage := x; statusLoading := statusLoading s;
     pending := pending s; dataPending := dataPending s;
     stdinHooked := stdinHooked s; listening := listening s;
     settled := settled s; timer := timer s; clock := clock s;
     fired := fired s; uncaught := uncaught s; effects := effects s |}.

Definition set_statusLoading (x : bool) (s : state) : state :=
  {| cfg := cfg s; found := found s; count := count s; terms := terms s;
     line := line s; start := start s; dataset := dataset s;
     loadedPages := loadedPages s; morePages := morePages s;
     loadingNextPage := loadingNextPage s; cachedResults := cachedResults s;
     statusMessage := statusMessage s; statusLoading := x;
     pending := pending s; dataPending := dataPending s;
     stdinHooked := stdinHooked s; listening := listening s;
     settled := settled s; timer := timer s; clock := clock s;
     fired := fired s; uncaught := uncaught s; effects := effects s |}.

Definition set_pending (x : list fetch) (s : state) : state :=
  {| cfg := cfg s; found := found s; count := count s; terms := terms s;
     line := line s; start := start s; dataset := dataset s;
     loadedPages := loadedPages s; morePages := morePages s;
     loadingNextPage := loadingNextPage s; cachedResults := cachedResults s;
     statusMessage := statusMessage s; statusLoading := statusLoading s;
     pending := x; dataPending := dataPending s;
     stdinHooked := stdinHooked s; listening := listening s;
     settled := settled s; timer := timer s; clock := clock s;
     fired := fired s; uncaught := uncaught s; effects := effects s |}.

Definition set_dataPending (x : bool) (s : state) : state :=
  {| cfg := cfg s; found := found s; count := count s; terms := terms s;
     line := line s; start := start s; dataset := dataset s;
     loadedPages := loadedPages s; morePages := morePages s;
     loadingNextPage := loadingNextPage s; cachedResults := cachedResults s;
     statusMessage := statusMessage s; statusLoading := statusLoading s;
     pending := pending s; dataPending := x; stdinHooked := stdinHooked s;
     listening := listening s; settled := settled s; timer := timer s;
     clock := clock s; fired := fired s; uncaught := uncaught s;
     effects := effects s |}.

Definition set_stdinHooked (x : bool) (s : state) : state :=
  {| cfg := cfg s; found := found s; count := count s; terms := terms s;
     line := line s; start := start s; dataset := dataset s;
     loadedPages := loadedPages s; morePages := morePages s;
     loadingNextPage := loadingNextPage s; cachedResults := cachedResults s;
     statusMessage := statusMessage s; statusLoading := statusLoading s;
     pending := pending s; dataPending := dataPending s; stdinHooked := x;
     listening := listening s; settled := settled s; timer := timer s;
     clock := clock s; fired := fired s; uncaught := uncaught s;
     effects := effects s |}.

Definition set_listening (x : bool) (s : state) : state :=
  {| cfg := cfg s; found := found s; count := count s; terms := terms s;
     line := line s; start := start s; dataset := dataset s;
     loadedPages := loadedPages s; morePages := morePages s;
     loadingNextPage := loadingNextPage s; cachedResults := cachedResults s;
     statusMessage := statusMessage s; statusLoading := statusLoading s;
     pending := pending s; dataPending := dataPending s;
     stdinHooked := stdinHooked s; listening := x; settled := settled s;
     timer := timer s; clock := clock s; fired := fired s;
     uncaught := uncaught s; effects := effects s |}.

Definition set_settled (x : option outcome) (s : state) : state :=
  {| cfg := cfg s; found := found s; count := count s; terms := terms s;
     line := line s; start := start s; dataset := dataset s;
     loadedPages := loadedPages s; morePages := morePages s;
     loadingNextPage := loadingNextPage s; cachedResults := cachedResults s;
     statusMessage := statusMessage s; statusLoading := statusLoading s;
     pending := pending s; dataPending := dataPending s;
     stdinHooked := stdinHooked s; listening := listening s; settled := x;
     timer := timer s; clock := clock s; fired := fired s;
     uncaught := uncaught s; effects := effects s |}.

Definition set_timer (x : option Z) (s : state) : state :=
  {| cfg := cfg s; found := found s; count := count s; terms := terms s;
     line := line s; start := start s; dataset := dataset s;
     loadedPages := loadedPages s; morePages := morePages s;
     loadingNextPage := loadingNextPage s; cachedResults := cachedResults s;
     statusMessage := statusMessage s; statusLoading := statusLoading s;
     pending := pending s; dataPending := dataPending s;
     stdinHooked := stdinHooked s; listening := listening s;
     settled := settled s; timer := x; clock := clock s; fired := fired s;
     uncaught := uncaught s; effects := effects s |}.

Definition set_clock (x : Z) (s : state) : state :=
  {| cfg := cfg s; found := found s; count := count s; terms := terms s;
     line := line s; start := start s; dataset := dataset s;
     loadedPages := loadedPages s; morePages := morePages s;
     loadingNextPage := loadingNextPage s; cachedResults := cachedResults s;
     statusMessage := statusMessage s; statusLoading := statusLoading s;
     pending := pending s; dataPending := dataPending s;
     stdinHooked := stdinHooked s; listening := listening s;
     settled := settled s; timer := timer s; clock := x; fired := fired s;
     uncaught := uncaught s; effects := effects s |}.

Definition set_fired (x : list (Z * termsObj)) (s : state) : state :=
  {| cfg := cfg s; found := found s; count := count s; terms := terms s;
     line := line s; start := start s; dataset := dataset s;
     loadedPages := loadedPages s; morePages := morePages s;
     loadingNextPage := loadingNextPage s; cachedResults := cachedResults s;
     statusMessage := statusMessage s; statusLoading := statusLoading s;
     pending := pending s; dataPending := dataPending s;
     stdinHooked := stdinHooked s; listening := listening s;
     settled := settled s; timer := timer s; clock := clock s; fired := x;
     uncaught := uncaught s; effects := effects s |}.

Definition set_uncaught (x : option error) (s : state) : state :=
  {| cfg := cfg s; found := found s; count := count s; terms := terms s;
     line := line s; start := start s; dataset := dataset s;
     loadedPages := loadedPages s; morePages := morePages s;
     loadingNextPage := loadingNextPage s; cachedResults := cachedResults s;
     statusMessage := statusMessage s; statusLoading := statusLoading s;
     pending := pending s; dataPending := dataPending s;
     stdinHooked := stdinHooked s; listening := listening s;
     settled := settled s; timer := timer s; clock := clock s;
     fired := fired s; uncaught := x; effects := effects s |}.

Definition set_effects (x : list effect) (s : state) : state :=
  {| cfg := cfg s; found := found s; count := count s; terms := terms s;
     line := line s; start := start s; dataset := dataset s;
     loadedPages := loadedPages s; morePages := morePages s;
     loadingNextPage := loadingNextPage s; cachedResults := cachedResults s;
     statusMessage := statusMessage s; statusLoading := statusLoading s;
     pending := pending s; dataPending := dataPending s;
     stdinHooked := stdinHooked s; listening := listening s;
     settled := settled s; timer := timer s; clock := clock s;
     fired := fired s; uncaught := uncaught s; effects := x |}.

(** ** Running a function of the executor *)

(** A call either returns, throws (the assignments made before the throw
    stay), or recurses deeper than the fuel it was given. *)
Inductive Res :=
| Done (s : state)
| Raised (e : error) (s : state)
| OutOfFuel.

Definition andThen (r : Res) (k : state → Res) : Res :=
  match r with
  | Done s => k s
  | Raised e s => Raised e s
  | OutOfFuel => OutOfFuel
  end.

Notation "r >>> k" := (andThen r k) (at level 61, left associativity).

Definition emit (e : effect) (s : state) : state :=
  set_effects (e :: effects s) s.

(** [resolve] and [reject] of the promise: only the first call settles it. *)
Definition resolve (v : option item) (s : state) : state :=
  emit (FxResolve v)
    (match settled s with
     | None => set_settled (Some (Resolved v)) s
     | Some _ => s
     end).

Definition reject (e : error) (s : state) : state :=
  emit (FxReject e)
    (match settled s with
     | None => set_settled (Some (Rejected e)) s
     | Some _ => s
     end).

Section Controller.

(** The fuzzy matcher of [./fuzzy], which the executor calls as
    [fuzzy(items, terms)] and about which it knows nothing else. *)
Variable fuzzy : list item → list string → list item.

(** [const filter = data || fuzzyOnSearch ? fuzzy : (items) => items] *)
Definition filter (c : config) : list item → list string → list item :=
  if truthy (cfg_data c) || cfg_fuzzyOnSearch c then fuzzy
  else fun items _ => items.

Definition formatFuzzyResult (it : item) : chalk :=
  let hl := default [] (highlight it) in
  cat_all
    (imap (fun i c =>
             let c := Plain (String c EmptyString) in
             if bool_decide (i ∈ hl) then Styled underline c else c)
          (String.list_ascii_of_string (label it))).

Definition formatSimpleResult (it : item) : chalk := Plain (label it).

Definition format (c : config) : item → chalk :=
  if truthy (cfg_data c) || cfg_fuzzyOnSearch c then formatFuzzyResult
  else formatSimpleResult.

(** [updateStatus(message = null, loading = null)], where [None] is the
    [null] that keeps the remembered value. *)
Definition updateStatus (message : option string) (loading : option bool)
    (s : state) : state :=
  let s := match message with Some m => set_statusMessage m s | None => s end in
  let s := match loading with Some l => set_statusLoading l s | None => s end in
  let message := statusMessage s in
  let string :=
    if String.eqb message "" then Plain "" else Styled bold (Plain message) in
  let string :=
    if statusLoading s then
      Cat string
        (Styled dim
           (Plain (if String.eqb message "" then "Loading..." else " (loading...)")))
    else string in
  emit (FxStatus string) s.

(** The status line of [updateList]. *)
Definition statusText (s : state) : string :=
  (if count s =? 0 then "No result"
   else if count s =? 1 then "1 result"
   else pretty (count s) +:+ " results")
  +:+
  (if truthy (cfg_search (cfg s)) then
     if Z.of_nat (length (found s)) <? count s
     then " (loaded " +:+ pretty (length (found s)) +:+ " yet)"
     else " (all loaded)"
   else "").

(** [String(result.index + 1)] *)
Definition rankString (result : item) : string :=
  match index result with
  | Some i => pretty (i + 1)
  | None => "NaN"
  end.

(** One row of [results.forEach]; [None] when [" ".repeat] throws. *)
Definition renderRow (s : state) (padLength : Z) (result : item) : option chalk :=
  pad ← js_repeat " " (padLength - Z.of_nat (String.length (rankString result)));
  let prefix := Styled dim (Plain (pad +:+ rankString result +:+ " > ")) in
  let string := Cat prefix (format (cfg s) result) in
  Some (if bool_decide (index result = Some (line s))
        then Styled inverse string else string).

Fixpoint renderRows (padLength : Z) (i : nat) (results : list item)
    (s : state) : Res :=
  match results with
  | [] => Done s
  | result :: rest =>
      match renderRow s padLength result with
      | None => Raised ErrRange s
      | Some c => renderRows padLength (S i) rest (emit (FxOutput i c) s)
      end
  end.

(** [for (let i = from; i < from + n; i++) updateOutputs[i]("")] *)
Fixpoint clearRows (from n : nat) (s : state) : state :=
  match n with
  | O => s
  | S n' => clearRows (S from) n' (emit (FxOutput from (Plain "")) s)
  end.

(** The test that closes [updateList]:
    [search && start + size >= found.length && morePages]. *)
Definition lastVisible (s : state) : bool :=
  truthy (cfg_search (cfg s))
  && (Z.of_nat (length (found s)) <=? start s + cfg_size (cfg s))
  && morePages s.

(** The display part of [updateList], up to that test. *)
Definition redraw (s : state) : Res :=
  let s := updateStatus (Some (statusText s)) (Some false) s in
  let results := js_slice (found s) (start s) (start s + cfg_size (cfg s)) in
  let padLength := Z.of_nat (String.length (pretty (count s))) in
  renderRows padLength 0 results s >>> fun s =>
  Done (clearRows (length results)
          (Z.to_nat (cfg_size (cfg s) - Z.of_nat (length results))) s).

(** [updateList], with the [loadNextPage] it calls passed in: the two
    functions call each other. *)
Definition updateList_with (loadNextPage : state → Res) (s : state) : Res :=
  redraw s >>> fun s =>
  if lastVisible s then loadNextPage s else Done s.

(** [loadNextPage].  The fuel bounds the depth of the recursion through
    [updateList]. *)
Fixpoint loadNextPage (fuel : nat) (s : state) : Res :=
  match fuel with
  | O => OutOfFuel
  | S fuel' =>
      let query := join (terms s) in
      match loadedPages s, cachedResults s !! query with
      | O, Some e =>
          let s := set_loadedPages (c_loadedPages e) s in
          let s := set_found (c_found e) s in
          let s := set_count (c_count e) s in
          let s := set_morePages (c_morePages e) s in
          updateList_with (loadNextPage fuel') s
      | _, _ =>
          let s := updateStatus None (Some true) s in
          let page := S (loadedPages s) in
          let _terms := tid (terms s) in
          if bool_decide (_terms ∈ loadingNextPage s) then Done s
          else
            let s := set_loadingNextPage ({[ _terms ]} ∪ loadingNextPage s) s in
            let s := emit (FxSearch (join (terms s)) page) s in
            Done (set_pending (pending s ++ [mkFetch _terms query page]) s)
      end
  end.

Definition updateList (fuel : nat) : state → Res :=
  updateList_with (loadNextPage fuel).

(** The callback given to [then] in [loadNextPage], for the fetch [f] and
    the value [r] its promise resolved to. *)
Definition loadNextPage_then (f : fetch) (r : searchResult) (fuel : nat)
    (s : state) : Res :=
  let s := set_loadingNextPage (loadingNextPage s ∖ {[ f_terms f ]}) s in
  if bool_decide (f_terms f ≠ tid (terms s)) then Done s
  else
    let added :=
      imap (fun i it => withIndex it (Z.of_nat (length (found s)) + Z.of_nat i))
           (data r) in
    let s := set_found (found s ++ added) s in
    let s := set_count (total r) s in
    let s := set_loadedPages (f_page f) s in
    let s := set_morePages (more r) s in
    let s :=
      if cfg_cache (cfg s) then
        set_cachedResults
          (<[ f_query f :=
                mkEntry (loadedPages s) (found s) (count s) (morePages s) ]>
             (cachedResults s)) s
      else s in
    updateList fuel s.

Definition filterDataset (fuel : nat) (s : state) : Res :=
  let s := set_line 0 s in
  let s := set_start 0 s in
  match truthy (cfg_data (cfg s)), dataset s with
  | true, Some items =>
      let s := set_found (filter (cfg s) items (tchars (terms s))) s in
      let s := set_count (Z.of_nat (length (found s))) s in
      updateList fuel s
  | _, _ =>
      if truthy (cfg_search (cfg s)) then
        let s := set_loadedPages 0 s in
        let s := set_found [] s in
        loadNextPage fuel s
      else Done s
  end.

(** [debounce(filterDataset, debounceDelay)] of lodash with its default
    options: a call (re)places the one pending timer, which then runs
    [filterDataset] once the delay has passed without another call. *)
Definition debouncedFilterDataset (s : state) : state :=
  set_timer (Some (clock s + Z.max 0 (cfg_debounceDelay (cfg s)))) s.

Definition onChangeInput (chars : termsObj) (position : Z) (modified : bool)
    (s : state) : state :=
  let prettyChars :=
    imap (fun i char =>
            if bool_decide (position = Z.of_nat i)
            then Styled bold (Styled inverse (Plain char))
            else Styled bold (Plain char))
         (tchars chars) in
  let prettyChars :=
    if bool_decide (position = Z.of_nat (length (tchars chars)))
    then prettyChars ++ [Styled inverse (Plain " ")] else prettyChars in
  let s := emit (FxInput (cat_all prettyChars)) s in
  if modified then
    let s := set_terms chars s in
    debouncedFilterDataset s
  else s.

Definition onChangeLine (dline dpage : Z) (fuel : nat) (s : state) : Res :=
  let size := cfg_size (cfg s) in
  let s :=
    set_line
      (Z.max 0 (Z.min (Z.of_nat (length (found s)) - 1)
                      (line s + dline + dpage * size))) s in
  let s :=
    if ((dline <? 0) || (dpage <? 0)) && (line s <? start s)
    then set_start (line s) s
    else if ((0 <? dline) || (0 <? dpage)) && (start s + size <=? line s)
    then set_start (line s - size + 1) s
    else s in
  updateList fuel s.

(** [end(err, result)]; [None] for an absent or [null] argument.  The
    test is [if (err)]: a falsy reason resolves the promise. *)
Definition end_ (err : option error) (result : option item) (s : state) : state :=
  let s := set_listening false (emit FxUnlisten s) in
  match err with
  | Some e => if error_truthy e then reject e s else resolve result s
  | None => resolve result s
  end.

Definition onSelect (s : state) : state :=
  let selected := js_nth (found s) (line s) in
  end_ None selected s.

Definition onEnd (s : state) : state := end_ None None s.

(** [checkDataset]: [None] is a value that is not an array; an element is
    [None] when it is falsy. *)
Definition checkDataset (items : option (list (option item)))
  : error + list item :=
  match items with
  | None => inl ErrInvalidDataset
  | Some items =>
      inr (omap (fun it : option item =>
                   match it with
                   | Some i => if String.eqb (label i) "" then None else Some i
                   | None => None
                   end) items)
  end.

(** ** Construction *)

(** The variables as the executor declares them; the first [terms] is the
    array literal [[]], an object of its own. *)
Definition initial (c : config) : state :=
  {| cfg := c; found := []; count := 0; terms := mkTerms 0 []; line := 0;
     start := 0; dataset := None; loadedPages := 0; morePages := false;
     loadingNextPage := ∅; cachedResults := ∅; statusMessage := "";
     statusLoading := false; pending := []; dataPending := false;
     stdinHooked := false; listening := false; settled := None;
     timer := None; clock := 0; fired := []; uncaught := None; effects := [] |}.

(** An exception in a listener or a timer callback has no handler; one in a
    promise chain that ends in [.catch(end)] is passed to [end]. *)
Definition uncaughtIn (r : Res) : option state :=
  match r with
  | Done s => Some s
  | Raised e s => Some (set_uncaught (Some e) s)
  | OutOfFuel => None
  end.

Definition caughtByEnd (r : Res) : option state :=
  match r with
  | Done s => Some s
  | Raised e s => Some (end_ (Some e) None s)
  | OutOfFuel => None
  end.

(** The promise executor, followed by the microtask it queues in search
    mode ([Promise.resolve().then(() => loadNextPage())]), which runs before
    any event can arrive.  An exception thrown by the executor rejects the
    promise: that is what [" ".repeat(size)] does for a negative [size]. *)
Definition create (fuel : nat) (c : config) : option state :=
  let s := initial c in
  if negb (truthy (cfg_data c)) && negb (truthy (cfg_search c)) then
    Some (reject ErrRequired s)
  else if truthy (cfg_search c)
          && negb (String.eqb (typeof (cfg_search c)) "function") then
    Some (reject (ErrSearchType (typeof (cfg_search c))) s)
  else if cfg_size c <? 0 then
    Some (reject ErrRange s)
  else
    let s := emit (FxInput (Styled dim (Plain "Enter your search"))) s in
    let s := set_stdinHooked true (emit FxStdin s) in
    let s :=
      if truthy (cfg_data c)
      then set_dataPending true (updateStatus None (Some true) s)
      else s in
    let s := set_listening true (emit FxListen s) in
    if truthy (cfg_data c) then Some s
    else uncaughtIn (loadNextPage fuel s).

(** ** Events *)

Inductive event :=
| Change (chars : termsObj) (position : Z) (modified : bool)
| Line (dline dpage : Z)
| Select
| Cancel                                   (* the input event "end" *)
| StdinError (e : error)
| DataResolved (items : option (list (option item)))
| DataRejected (e : error)
| SearchResolved (f : fetch) (r : searchResult)
| SearchRejected (f : fetch) (e : error).

Fixpoint removeFetch (f : fetch) (l : list fetch) : list fetch :=
  match l with
  | [] => []
  | g :: l' => if decide (f = g) then l' else g :: removeFetch f l'
  end.

(** What the event loop runs for one event.  The input emitter calls a
    listener only while it is attached; a promise settles once. *)
Definition handle (fuel : nat) (ev : event) (s : state) : option state :=
  match ev with
  | Change chars position modified =>
      if listening s then Some (onChangeInput chars position modified s)
      else Some s
  | Line dline dpage =>
      if listening s then uncaughtIn (onChangeLine dline dpage fuel s)
      else Some s
  | Select => if listening s then Some (onSelect s) else Some s
  | Cancel => if listening s then Some (onEnd s) else Some s
  | StdinError e =>
      if stdinHooked s then Some (end_ (Some e) None s) else Some s
  | DataResolved items =>
      if dataPending s then
        let s := set_dataPending false s in
        match checkDataset items with
        | inl e => Some (end_ (Some e) None s)
        | inr items => caughtByEnd (filterDataset fuel (set_dataset (Some items) s))
        end
      else Some s
  | DataRejected e =>
      if dataPending s then Some (end_ (Some e) None (set_dataPending false s))
      else Some s
  | SearchResolved f r =>
      if bool_decide (f ∈ pending s) then
        caughtByEnd
          (loadNextPage_then f r fuel
             (set_pending (removeFetch f (pending s)) s))
      else Some s
  | SearchRejected f e =>
      if bool_decide (f ∈ pending s) then
        Some (end_ (Some e) None (set_pending (removeFetch f (pending s)) s))
      else Some s
  end.

(** The debounce timer expires when its deadline is not after [t]. *)
Definition expire (fuel : nat) (t : Z) (s : state) : option state :=
  match timer s with
  | Some deadline =>
      if deadline <=? t
      then
        let s := set_timer None (set_clock deadline s) in
        let s := set_fired ((deadline, terms s) :: fired s) s in
        uncaughtIn (filterDataset fuel s)
      else Some s
  | None => Some s
  end.

Definition halted (s : state) : bool :=
  match uncaught s with Some _ => true | None => false end.

(** Time passes until [t] with no event. *)
Definition tick (fuel : nat) (t : Z) (s : state) : option state :=
  if halted s then Some s
  else s ← expire fuel t s; Some (if halted s then s else set_clock t s).

(** The event [ev] arrives at time [t]. *)
Definition deliver (fuel : nat) (t : Z) (ev : event) (s : state) : option state :=
  s ← tick fuel t s;
  if halted s then Some s else handle fuel ev s.

Fixpoint run (fuel : nat) (evs : list (Z * event)) (s : state) : option state :=
  match evs with
  | [] => Some s
  | (t, ev) :: evs' => s ← deliver fuel t ev s; run fuel evs' s
  end.

(** The states a session can be in. *)
Inductive reachable (fuel : nat) (c : config) : state → Prop :=
| reach_create s :
    create fuel c = Some s → reachable fuel c s
| reach_tick s t s' :
    reachable fuel c s → tick fuel t s = Some s' → reachable fuel c s'
| reach_deliver s t ev s' :
    reachable fuel c s → deliver fuel t ev s = Some s' → reachable fuel c s'.

End Controller.

(** ** Vocabulary for the statements *)

(** What holds of the state a call leaves behind, however it ends. *)
Definition after (r : Res) (P : state → Prop) : Prop :=
  match r with
  | Done s | Raised _ s => P s
  | OutOfFuel => True
  end.

Definition returns (r : Res) : Prop :=
  match r with OutOfFuel => False | _ => True end.

(** The calls of the collaborator and the writes to the draft lines so far. *)
Definition searches (s : state) : list effect := List.filter is_search (effects s).
Definition displayed (s : state) : list effect := List.filter is_display (effects s).

(** The state without what a redraw touches. *)
Definition core (s : state) : state :=
  set_effects [] (set_statusLoading false (set_statusMessage "" s)).

(** [s'] differs from [s] by writes to the display only. *)
Definition display_only (s s' : state) : Prop :=
  core s' = core s ∧
  ∃ l, effects s' = l ++ effects s ∧ Forall (fun e => is_display e = true) l.

(** What [loadNextPage] and [updateList] never assign. *)
Definition frame (s : state) :=
  (cfg s, terms s, line s, start s, dataset s, cachedResults s,
   dataPending s, stdinHooked s, listening s, settled s, timer s, clock s,
   fired s, uncaught s).

(** The index values are 0, 1, ..., length - 1 in list order. *)
Definition dense (l : list item) : Prop :=
  ∀ i it, l !! i = Some it → index it = Some (Z.of_nat i).

(** The items of a page as the [then] callback appends them. *)
Definition indexed (from : nat) (page : list item) : list item :=
  imap (fun i it => withIndex it (Z.of_nat from + Z.of_nat i)) page.

(** [clamp(lo, hi, x)] *)
Definition clamp (lo hi x : Z) : Z := Z.max lo (Z.min hi x).

(** The viewport invariant for a window of [size] rows. *)
Definition viewport_ok (size : Z) (s : state) : Prop :=
  0 ≤ start s ∧ start s ≤ line s < start s + size.

(** Facts about sessions that the code relies on without checking them. *)
Record session_inv (s : state) : Prop := {
  inv_cache : ∀ q e, cachedResults s !! q = Some e → c_loadedPages e ≠ 0%nat;
  inv_pending : ∀ f, f ∈ pending s → f_page f ≠ 0%nat;
  inv_marked : ∀ f, f ∈ pending s → f_terms f ∈ loadingNextPage s;
  inv_nodup : NoDup (f_terms <$> pending s);
  inv_listening : listening s = true → settled s = None;
  inv_size : listening s = true → 0 ≤ cfg_size (cfg s) }.

(** The two ways through [loadNextPage]: the assignments of a cache hit,
    and the path that asks the collaborator. *)
Definition restore (e : cacheEntry) (s : state) : state :=
  set_morePages (c_morePages e)
    (set_count (c_count e)
       (set_found (c_found e)
          (set_loadedPages (c_loadedPages e) s))).

Definition request (s : state) : state :=
  let s1 := updateStatus None (Some true) s in
  if bool_decide (tid (terms s) ∈ loadingNextPage s) then s1
  else
    set_pending
      (pending s ++ [mkFetch (tid (terms s)) (join (terms s)) (S (loadedPages s))])
      (emit (FxSearch (join (terms s)) (S (loadedPages s)))
         (set_loadingNextPage ({[ tid (terms s) ]} ∪ loadingNextPage s) s1)).

(** The cache entry [loadNextPage] would restore from. *)
Definition cacheHit (s : state) : option cacheEntry :=
  match loadedPages s with
  | O => cachedResults s !! join (terms s)
  | S _ => None
  end.

(** The result set: what a page fetch or a cache hit assigns. *)
Definition results (s : state) : list item * Z * nat * bool :=
  (found s, count s, loadedPages s, morePages s).

(** The display has at least as many writes in [s'] as in [s]. *)
Definition shown_le (s s' : state) : Prop :=
  (length (displayed s) ≤ length (displayed s'))%nat.

(** The state the callback hands to [updateList] when the query is still
    the current one. *)
Definition accepted (f : fetch) (r : searchResult) (s : state) : state :=
  let nfound := found s ++ indexed (length (found s)) (data r) in
  let s1 :=
    set_morePages (more r)
      (set_loadedPages (f_page f)
         (set_count (total r)
            (set_found nfound
               (set_loadingNextPage (loadingNextPage s ∖ {[ f_terms f ]}) s)))) in
  if cfg_cache (cfg s) then
    set_cachedResults
      (<[ f_query f := mkEntry (f_page f) nfound (total r) (more r) ]>
         (cachedResults s)) s1
  else s1.

(** The events that reach the controller through the input listeners. *)
Definition is_input (ev : event) : bool :=
  match ev with
  | Change _ _ _ | Line _ _ | Select | Cancel => true
  | _ => false
  end.

(** While the current terms object is marked in [loadingNextPage], a call
    leaves the collaborator, the pending fetches and the marks alone. *)
Definition held_back (s s' : state) : Prop :=
  terms s' = terms s ∧
  (tid (terms s) ∈ loadingNextPage s →
   searches s' = searches s ∧ pending s' = pending s
   ∧ loadingNextPage s' = loadingNextPage s).

Definition is_done (r : Res) : bool :=
  match r with Done _ => true | _ => false end.

(** The indices in [found] and in every cache entry are dense, in a session
    constructed from [c]. *)
Definition index_inv (c : config) (s : state) : Prop :=
  cfg s = c ∧ dense (found s)
  ∧ ∀ q e, cachedResults s !! q = Some e → dense (c_found e).

(** ** Bursts of keystrokes *)

(** A keystroke that changes the text: when it arrives, the array of
    characters it carries and the cursor position. *)
Definition keystroke : Type := Z * termsObj * Z.

Definition typing (burst : list keystroke) : list (Z * event) :=
  map (fun k : keystroke =>
         let '(t, chars, position) := k in (t, Change chars position true))
      burst.

(** Every keystroke arrives less than [delay] after the one before it,
    the first one after [prev]. *)
Fixpoint rapid (delay prev : Z) (burst : list keystroke) : Prop :=
  match burst with
  | [] => True
  | (t, _, _) :: rest => prev ≤ t < prev + delay ∧ rapid delay t rest
  end.

(** The last keystroke of a burst that starts with [k]. *)
Fixpoint lastKey (k : keystroke) (rest : list keystroke) : keystroke :=
  match rest with
  | [] => k
  | k' :: rest' => lastKey k' rest'
  end.

(** The delay the debounce timer is set to. *)
Definition delay_of (s : state) : Z := Z.max 0 (cfg_debounceDelay (cfg s)).

(** ** Sample sessions *)

(** A session: construction, then timed events. *)
Definition session (fuzzy : list item → list string → list item) (fuel : nat)
    (c : config) (evs : list (Z * event)) : option state :=
  s ← create fuel c; run fuzzy fuel evs s.

(** A matcher that keeps every item and ranks them in dataset order. *)
Definition sample_fuzzy (items : list item) (_ : list string) : list item :=
  imap (fun i it => withIndex it (Z.of_nat i)) items.

Definition entry (l : string) : item := mkItem l None None.

(** Search mode with the default options. *)
Definition search_config : config :=
  mkConfig 10 JUndefined JFunction false 300 true.

(** The first page of the spec's scenario: five items of twelve. *)
Definition page_one : searchResult :=
  mkResult [entry "a"; entry "b"; entry "c"; entry "d"; entry "e"] 12 true.

(** The fetch that construction starts in search mode. *)
Definition first_fetch : fetch := mkFetch 0 "" 1.

(** Right after construction in search mode. *)
Definition search_started : state :=
  default (initial search_config) (create 2 search_config).

(** The user has typed "x" while the first fetch is in flight. *)
Definition typed_x : state :=
  onChangeInput (mkTerms 1 ["x"]) 1 true search_started.

(** The user has cancelled while the first fetch is in flight. *)
Definition cancelled : state :=
  default (initial search_config)
    (session sample_fuzzy 2 search_config [(5, Cancel)]).



(** Both [data] and [search] supplied, two visible rows. *)
Definition both_config : config :=
  mkConfig 2 JObject JFunction false 300 true.

(** A session with both options in which the dataset arrives late.  The
    query "a" is searched and cached (one item of five, more pages); the
    query "ab" is searched; the dataset of four items arrives and is
    filtered; the user goes back to "a", which is now filtered from the
    dataset, and moves down three times.  The third move shows the last
    row, so [updateList] calls [loadNextPage], which finds "a" in the cache
    and puts the one cached item in place of the four. *)
Definition late_dataset : list (Z * event) :=
  [(0, Change (mkTerms 1 ["a"]) 1 true);
   (310, SearchResolved (mkFetch 1 "a" 1) (mkResult [entry "x"] 5 true));
   (400, Change (mkTerms 2 ["a"; "b"]) 2 true);
   (800, DataResolved
           (Some [Some (entry "p"); Some (entry "q"); Some (entry "r");
                  Some (entry "s")]));
   (900, Change (mkTerms 3 ["a"]) 1 true);
   (1300, Line 1 0);
   (1310, Line 1 0);
   (1320, Line 1 0)].

Definition scrolled : state :=
  default (initial both_config) (session sample_fuzzy 2 both_config late_dataset).

(** The first page has been taken in by the [then] callback, and the list
    has been redrawn. *)
Definition page_one_accepted : state :=
  accepted first_fetch page_one search_started.

Definition page_one_drawn : state :=
  match redraw page_one_accepted with
  | Done s | Raised _ s => s
  | OutOfFuel => page_one_accepted
  end.

(** [search] given as the number 0 next to a dataset; [data] given as the
    number 0 and no [search]. *)
Definition search_zero_config : config :=
  mkConfig 10 JObject (JNum 0) false 300 true.

Definition data_zero_config : config :=
  mkConfig 10 (JNum 0) JUndefined false 300 true.

(** ** The assignments the handlers are made of *)

(** The assignments of [onChangeLine], before it calls [updateList]. *)
Definition moved (dline dpage : Z) (s : state) : state :=
  let size := cfg_size (cfg s) in
  let s :=
    set_line
      (Z.max 0 (Z.min (Z.of_nat (length (found s)) - 1)
                      (line s + dline + dpage * size))) s in
  if ((dline <? 0) || (dpage <? 0)) && (line s <? start s)
  then set_start (line s) s
  else if ((0 <? dline) || (0 <? dpage)) && (start s + size <=? line s)
  then set_start (line s - size + 1) s
  else s.

(** The states in which the executor hands over to the event loop: the
    promise rejected by one of the checks, or the session set up. *)
Definition booted (c : config) : state :=
  let s := emit (FxInput (Styled dim (Plain "Enter your search"))) (initial c) in
  let s := set_stdinHooked true (emit FxStdin s) in
  let s :=
    if truthy (cfg_data c)
    then set_dataPending true (updateStatus None (Some true) s)
    else s in
  set_listening true (emit FxListen s).

Inductive boot (c : config) : state → Prop :=
| boot_rejected e : boot c (reject e (initial c))
| boot_ready : 0 ≤ cfg_size c → boot c (booted c).

(** One block of assignments of one of the executor's functions.  Every
    call of a handler is a sequence of these. *)
Inductive prim (fuzzy : list item → list string → list item)
  : state → state → Prop :=
| prim_display s s' :
    display_only s s' → prim fuzzy s s'
| prim_restore s e :
    truthy (cfg_search (cfg s)) = true →
    cacheHit s = Some e → prim fuzzy s (restore e s)
| prim_request s :
    truthy (cfg_search (cfg s)) = true →
    cacheHit s = None → prim fuzzy s (request s)
| prim_settle s f :
    f ∈ pending s → prim fuzzy s (set_pending (removeFetch f (pending s)) s)
| prim_unmark s f :
    f_terms f ∈ loadingNextPage s →
    f_terms f ≠ tid (terms s) →
    (∀ g, g ∈ pending s → f_terms g ≠ f_terms f) →
    prim fuzzy s (set_loadingNextPage (loadingNextPage s ∖ {[ f_terms f ]}) s)
| prim_accept s f r :
    f_terms f ∈ loadingNextPage s →
    f_terms f = tid (terms s) → f_page f ≠ 0%nat →
    (∀ g, g ∈ pending s → f_terms g ≠ f_terms f) →
    prim fuzzy s (accepted f r s)
| prim_filter_data s items :
    truthy (cfg_data (cfg s)) = true → dataset s = Some items →
    prim fuzzy s
      (let found' := filter fuzzy (cfg s) items (tchars (terms s)) in
       set_count (Z.of_nat (length found'))
         (set_found found' (set_start 0 (set_line 0 s))))
| prim_filter_search s :
    truthy (cfg_data (cfg s)) = false ∨ dataset s = None →
    truthy (cfg_search (cfg s)) = true →
    prim fuzzy s
      (set_found [] (set_loadedPages 0 (set_start 0 (set_line 0 s))))
| prim_filter_none s :
    truthy (cfg_data (cfg s)) = false ∨ dataset s = None →
    truthy (cfg_search (cfg s)) = false →
    prim fuzzy s (set_start 0 (set_line 0 s))
| prim_move s dline dpage :
    listening s = true → prim fuzzy s (moved dline dpage s)
| prim_input s chars position modified :
    listening s = true →
    prim fuzzy s (onChangeInput chars position modified s)
| prim_end s err v :
    prim fuzzy s (end_ err v s)
| prim_uncaught s e :
    prim fuzzy s (set_uncaught (Some e) s)
| prim_clock s t :
    prim fuzzy s (set_clock t s)
| prim_fire s deadline :
    timer s = Some deadline →
    prim fuzzy s
      (set_fired ((deadline, terms s) :: fired s)
         (set_timer None (set_clock deadline s)))
| prim_dataset s items :
    dataPending s = true →
    prim fuzzy s (set_dataset items (set_dataPending false s)).

(** The plain text of a styled string. *)
Fixpoint plain (c : chalk) : string :=
  match c with
  | Plain s => s
  | Styled _ c => plain c
  | Cat a b => plain a +:+ plain b
  end.

(** The selection is inside the window and on a loaded row (or on row 0 of
    an empty list); and in search mode nothing is loaded before the first
    page is. *)
Definition selection_inv (c : config) (s : state) : Prop :=
  viewport_ok (cfg_size c) s
  ∧ line s ≤ Z.max 0 (Z.of_nat (length (found s)) - 1)
  ∧ (truthy (cfg_search c) = false ∨ (loadedPages s = 0%nat → found s = [])).

(** Nothing of the paging machinery has been used. *)
Definition paging_idle (s : state) : Prop :=
  loadingNextPage s = ∅ ∧ cachedResults s = ∅ ∧ pending s = []
  ∧ searches s = [].

(** Dataset mode with the default options. *)
Definition data_config : config :=
  mkConfig 10 JObject JUndefined false 300 true.

Definition fruits : list (option item) :=
  [Some (entry "apple"); None; Some (entry ""); Some (entry "banana")].

(** Dataset mode, the dataset has arrived and has been filtered. *)
Definition data_loaded : state :=
  default (initial data_config)
    (session sample_fuzzy 2 data_config [(5, DataResolved (Some fruits))]).

(** Search mode, the first page is shown and page 2 is being fetched. *)
Definition page_one_shown : state :=
  default (initial search_config)
    (session sample_fuzzy 2 search_config
       [(10, SearchResolved first_fetch page_one)]).

(** The fetch of page 2 that showing the first page starts, and the page
    it may deliver. *)
Definition second_fetch : fetch := mkFetch 0 "" 2.

Definition page_two : searchResult :=
  mkResult [entry "f"; entry "g"] 12 true.

(** Search mode with a window of two rows. *)
Definition narrow_config : config :=
  mkConfig 2 JUndefined JFunction false 300 true.

(** The first page of five items is in, and the selection has moved down
    once: row 1 of the window that starts at row 0. *)
Definition narrow_shown : state :=
  default (initial narrow_config)
    (session sample_fuzzy 2 narrow_config
       [(10, SearchResolved first_fetch page_one); (20, Line 1 0)]).

(** One more step down, which scrolls the window. *)
Definition narrow_scrolled : state :=
  match onChangeLine 1 0 2 narrow_shown with
  | Done s | Raised _ s => s
  | OutOfFuel => narrow_shown
  end.

(** The two option checks at the top of the executor. *)
Definition misconfigured (c : config) : bool :=
  negb (truthy (cfg_data c)) && negb (truthy (cfg_search c))
  || truthy (cfg_search c)
     && negb (String.eqb (typeof (cfg_search c)) "function").

(** The items [updateList] draws, and the width it pads their ranks to. *)
Definition visible (s : state) : list item :=
  js_slice (found s) (start s) (start s + cfg_size (cfg s)).

Definition padLength (s : state) : nat := String.length (pretty (count s)).

(** The test of [checkDataset]'s filter, [item && item.label], on an
    element that is [None] when it is falsy. *)
Definition labelled (element : option item) : bool :=
  match element with
  | Some it => negb (String.eqb (label it) "")
  | None => false
  end.

(** * Properties of the executor's functions *)

Arguments end_ : simpl never.
Arguments onSelect : simpl never.
Arguments onEnd : simpl never.
Arguments onChangeInput : simpl never.
Arguments onChangeLine : simpl never.
Arguments filterDataset : simpl never.
Arguments loadNextPage_then : simpl never.
Arguments updateList : simpl never.

Lemma after_mono r (P Q : state → Prop) :
  after r P → (∀ s, P s → Q s) → after r Q.
Proof. destruct r; simpl; auto. Qed.

Lemma after_bind r k (P Q : state → Prop) :
  after r P → (∀ s, P s → Q s) → (∀ s, P s → after (k s) Q) →
  after (r >>> k) Q.
Proof. destruct r; simpl; auto. Qed.

Lemma display_only_refl s : display_only s s.
Proof. split; [done|]. exists []. by split. Qed.

Lemma display_only_trans s1 s2 s3 :
  display_only s1 s2 → display_only s2 s3 → display_only s1 s3.
Proof.
  intros [H1 (l1 & E1 & F1)] [H2 (l2 & E2 & F2)]. split; [congruence|].
  exists (l2 ++ l1). rewrite E2, E1, app_assoc. split; [done|].
  by apply Forall_app.
Qed.

Lemma display_only_emit e s :
  is_display e = true → display_only s (emit e s).
Proof.
  intros He. split; [done|]. exists [e]. split; [done|]. by constructor.
Qed.

Lemma display_only_searches s s' : display_only s s' → searches s' = searches s.
Proof.
  intros [_ (l & E & F)]. unfold searches. rewrite E, List.filter_app.
  clear E. induction F as [|e l He F IH]; [done|]. simpl.
  destruct e; simpl in *; try discriminate; exact IH.
Qed.

(** From [Some a = Some b], without unfolding [a] or [b]. *)
Ltac from_some :=
  let E := fresh "E" in
  intros E; apply (inj Some) in E; subst.

(** Reading a variable that a redraw leaves alone. *)
Ltac field_of H f :=
  let E := fresh "E" in
  pose proof (f_equal f H) as E; simpl in E.

Lemma updateStatus_display_only m l s : display_only s (updateStatus m l s).
Proof.
  unfold updateStatus. destruct m, l; simpl;
    (split; [done|]; eexists [_]; split; [reflexivity|]; by constructor).
Qed.

Lemma renderRows_display_only pad results : ∀ i s,
  after (renderRows pad i results s) (display_only s).
Proof.
  induction results as [|r rest IH]; intros i s; simpl.
  - apply display_only_refl.
  - destruct (renderRow s pad r) as [c|]; simpl.
    + eapply after_mono; [apply IH|]. intros s' H.
      eapply display_only_trans; [|exact H]. by apply display_only_emit.
    + apply display_only_refl.
Qed.

Lemma clearRows_display_only n : ∀ from s, display_only s (clearRows from n s).
Proof.
  induction n as [|n IH]; intros from s; simpl.
  - apply display_only_refl.
  - eapply display_only_trans; [|apply IH]. by apply display_only_emit.
Qed.

Lemma redraw_display_only s : after (redraw s) (display_only s).
Proof.
  unfold redraw.
  pose proof (updateStatus_display_only (Some (statusText s)) (Some false) s) as H0.
  set (s0 := updateStatus _ _ s) in *.
  eapply after_bind; [apply renderRows_display_only | |].
  - intros s1 H1. eapply display_only_trans; eassumption.
  - intros s1 H1. simpl. eapply display_only_trans; [exact H0|].
    eapply display_only_trans; [exact H1|]. apply clearRows_display_only.
Qed.

Lemma display_only_frame s s' : display_only s s' → frame s' = frame s.
Proof.
  intros [H _]. unfold frame.
  field_of H cfg. field_of H terms. field_of H line. field_of H start.
  field_of H dataset. field_of H cachedResults. field_of H dataPending.
  field_of H stdinHooked. field_of H listening. field_of H settled.
  field_of H timer. field_of H clock. field_of H fired. field_of H uncaught.
  congruence.
Qed.

Lemma display_only_lastVisible s s' :
  display_only s s' → lastVisible s' = lastVisible s.
Proof.
  intros [H _]. unfold lastVisible.
  field_of H cfg. field_of H found. field_of H start. field_of H morePages.
  congruence.
Qed.

(** ** [loadNextPage] and [updateList] *)

Lemma loadNextPage_hit fuel s e :
  cacheHit s = Some e →
  loadNextPage (S fuel) s = updateList fuel (restore e s).
Proof.
  unfold cacheHit. intros H. simpl.
  destruct (loadedPages s); [|discriminate]. rewrite H.
  unfold updateList, restore. reflexivity.
Qed.

Lemma loadNextPage_miss fuel s :
  cacheHit s = None →
  loadNextPage (S fuel) s = Done (request s).
Proof.
  unfold cacheHit, request. intros H. simpl.
  destruct (loadedPages s) eqn:E; [rewrite H|]; simpl;
    case_bool_decide; done.
Qed.

Lemma updateList_unfold fuel s :
  updateList fuel s =
  redraw s >>> fun s => if lastVisible s then loadNextPage fuel s else Done s.
Proof. reflexivity. Qed.

(** Whatever relates a state to its redraws, to the state a cache hit
    restores and to the state a request leaves, and is transitive, relates
    the state before a call of [loadNextPage] or [updateList] to the state
    after it. *)
Section Relating.

Variable R : state → state → Prop.
Hypothesis R_trans : ∀ s1 s2 s3, R s1 s2 → R s2 s3 → R s1 s3.
Hypothesis R_display : ∀ s s', display_only s s' → R s s'.
Hypothesis R_restore : ∀ s e, cacheHit s = Some e → R s (restore e s).
Hypothesis R_request : ∀ s, cacheHit s = None → R s (request s).

Lemma updateList_with_relates (lnp : state → Res) s :
  (∀ s, after (lnp s) (R s)) → after (updateList_with lnp s) (R s).
Proof.
  intros IH. unfold updateList_with.
  eapply after_bind; [apply redraw_display_only | exact (R_display s) |].
  intros s1 H1. destruct (lastVisible s1); simpl.
  - eapply after_mono; [apply IH|]. eauto.
  - auto.
Qed.

Lemma loadNextPage_relates fuel : ∀ s, after (loadNextPage fuel s) (R s).
Proof.
  induction fuel as [|fuel IH]; intros s; [exact I|].
  destruct (cacheHit s) as [e|] eqn:Hc.
  - rewrite (loadNextPage_hit _ _ _ Hc).
    eapply after_mono; [apply updateList_with_relates, IH|]. eauto.
  - rewrite (loadNextPage_miss _ _ Hc). simpl. auto.
Qed.

Lemma updateList_relates fuel s : after (updateList fuel s) (R s).
Proof. apply updateList_with_relates, loadNextPage_relates. Qed.

End Relating.

Lemma display_only_frame_eq s s' : display_only s s' → frame s = frame s'.
Proof. intros H. symmetry. by apply display_only_frame. Qed.

Lemma request_frame s : frame (request s) = frame s.
Proof.
  unfold request. case_bool_decide; unfold updateStatus; simpl; done.
Qed.

Lemma loadNextPage_frame fuel s :
  after (loadNextPage fuel s) (fun s' => frame s = frame s').
Proof.
  apply loadNextPage_relates with (R := fun s s' => frame s = frame s').
  - intros. congruence.
  - apply display_only_frame_eq.
  - done.
  - intros. symmetry. apply request_frame.
Qed.

Lemma updateList_frame fuel s :
  after (updateList fuel s) (fun s' => frame s = frame s').
Proof.
  apply updateList_relates with (R := fun s s' => frame s = frame s').
  - intros. congruence.
  - apply display_only_frame_eq.
  - done.
  - intros. symmetry. apply request_frame.
Qed.

(** *** Returning *)

Lemma returns_bind r k (P : state → Prop) :
  returns r → after r P → (∀ s, P s → returns (k s)) → returns (r >>> k).
Proof. destruct r; simpl; auto. Qed.

Lemma renderRows_returns pad results : ∀ i s, returns (renderRows pad i results s).
Proof.
  induction results as [|r rest IH]; intros i s; simpl; [done|].
  destruct (renderRow s pad r); [apply IH | done].
Qed.

Lemma redraw_returns s : returns (redraw s).
Proof.
  unfold redraw. eapply returns_bind with (P := fun _ => True).
  - apply renderRows_returns.
  - eapply after_mono; [apply renderRows_display_only|]. done.
  - done.
Qed.

Lemma loadNextPage_returns_loaded fuel s :
  loadedPages s ≠ 0%nat → returns (loadNextPage (S fuel) s).
Proof.
  intros H. rewrite loadNextPage_miss; [done|].
  unfold cacheHit. by destruct (loadedPages s).
Qed.

Lemma loadNextPage_returns fuel s :
  (∀ q e, cachedResults s !! q = Some e → c_loadedPages e ≠ 0%nat) →
  returns (loadNextPage (S (S fuel)) s).
Proof.
  intros Hc. destruct (cacheHit s) as [e|] eqn:Hh.
  - rewrite (loadNextPage_hit _ _ _ Hh), updateList_unfold.
    eapply returns_bind;
      [apply redraw_returns | apply redraw_display_only |].
    intros s1 [H1 _]. destruct (lastVisible s1); [|done].
    apply loadNextPage_returns_loaded.
    field_of H1 loadedPages. rewrite E.
    unfold cacheHit in Hh. destruct (loadedPages s); [|discriminate].
    by eapply Hc.
  - by rewrite (loadNextPage_miss _ _ Hh).
Qed.

Lemma updateList_returns fuel s :
  (∀ q e, cachedResults s !! q = Some e → c_loadedPages e ≠ 0%nat) →
  returns (updateList (S (S fuel)) s).
Proof.
  intros Hc. rewrite updateList_unfold.
  eapply returns_bind;
    [apply redraw_returns | apply redraw_display_only |].
  intros s1 [H1 _]. destruct (lastVisible s1); [|done].
  apply loadNextPage_returns. intros q e.
  field_of H1 cachedResults. rewrite E. apply Hc.
Qed.

(** ** The callback of a finished fetch *)

Lemma loadNextPage_then_stale f r fuel s :
  f_terms f ≠ tid (terms s) →
  loadNextPage_then f r fuel s =
  Done (set_loadingNextPage (loadingNextPage s ∖ {[ f_terms f ]}) s).
Proof.
  intros H. unfold loadNextPage_then. simpl. by rewrite bool_decide_eq_true_2.
Qed.

Lemma loadNextPage_then_current f r fuel s :
  f_terms f = tid (terms s) →
  loadNextPage_then f r fuel s = updateList fuel (accepted f r s).
Proof.
  intros H. unfold loadNextPage_then, accepted, indexed. simpl.
  rewrite bool_decide_eq_false_2 by (intros ?; congruence).
  by destruct (cfg_cache (cfg s)).
Qed.

Lemma accepted_results f r s :
  results (accepted f r s) =
  (found s ++ indexed (length (found s)) (data r), total r, f_page f, more r).
Proof. unfold accepted. by destruct (cfg_cache (cfg s)). Qed.

Lemma accepted_displayed f r s : displayed (accepted f r s) = displayed s.
Proof. unfold accepted. by destruct (cfg_cache (cfg s)). Qed.

(** ** The session invariant *)

Lemma session_inv_same s s' :
  cachedResults s' = cachedResults s → pending s' = pending s →
  loadingNextPage s' = loadingNextPage s →
  listening s' = listening s → settled s' = settled s → cfg s' = cfg s →
  session_inv s → session_inv s'.
Proof.
  intros Hc Hp Hm Hl Hs Hg [I1 I2 I3 I4 I5 I6].
  split; rewrite ?Hc, ?Hp, ?Hm, ?Hl, ?Hs, ?Hg; assumption.
Qed.

Lemma session_inv_display s s' :
  display_only s s' → session_inv s → session_inv s'.
Proof.
  intros [H _]. apply session_inv_same.
  - by field_of H cachedResults.
  - by field_of H pending.
  - by field_of H loadingNextPage.
  - by field_of H listening.
  - by field_of H settled.
  - by field_of H cfg.
Qed.

Lemma session_inv_request s : session_inv s → session_inv (request s).
Proof.
  intros H. unfold request. case_bool_decide as Hm.
  { by apply session_inv_same with s. }
  destruct H as [I1 I2 I3 I4 I5 I6]. split; simpl; try done.
  - intros f [Hf|Hf]%elem_of_app; [by apply I2|].
    apply list_elem_of_singleton in Hf. by subst f.
  - intros f [Hf|Hf]%elem_of_app.
    + apply elem_of_union_r. by apply I3.
    + apply list_elem_of_singleton in Hf. subst f. simpl.
      apply elem_of_union_l. by apply elem_of_singleton.
  - rewrite fmap_app. apply NoDup_app. split; [done|]. split.
    + intros t Ht [->|[]%elem_of_nil]%elem_of_cons.
      apply Hm. apply list_elem_of_fmap in Ht as (g & Eg & Hg).
      simpl in Eg. rewrite Eg. by apply I3.
    + apply NoDup_singleton.
Qed.

Lemma loadNextPage_inv fuel s :
  session_inv s → after (loadNextPage fuel s) session_inv.
Proof.
  intros H.
  eapply after_mono;
    [apply loadNextPage_relates
       with (R := fun s s' => session_inv s → session_inv s')|]; auto.
  - intros. by apply session_inv_display with s0.
  - intros s0 e _. by apply session_inv_same.
  - intros. by apply session_inv_request.
Qed.

Lemma updateList_inv fuel s :
  session_inv s → after (updateList fuel s) session_inv.
Proof.
  intros H.
  eapply after_mono;
    [apply updateList_relates
       with (R := fun s s' => session_inv s → session_inv s')|]; auto.
  - intros. by apply session_inv_display with s0.
  - intros s0 e _. by apply session_inv_same.
  - intros. by apply session_inv_request.
Qed.

Lemma end_inv err result s : session_inv s → session_inv (end_ err result s).
Proof.
  intros [I1 I2 I3 I4 I5 I6]. unfold end_, reject, resolve. simpl.
  destruct err as [reason|]; [destruct (error_truthy reason)|];
    destruct (settled s) eqn:E; split; simpl; done.
Qed.

Lemma uncaughtIn_inv r s' :
  after r session_inv → uncaughtIn r = Some s' → session_inv s'.
Proof.
  destruct r as [s|e s|]; cbn [after uncaughtIn]; intros H Heq;
    [congruence| |done].
  assert (s' = set_uncaught (Some e) s) as -> by congruence.
  by apply session_inv_same with s.
Qed.

Lemma caughtByEnd_inv r s' :
  after r session_inv → caughtByEnd r = Some s' → session_inv s'.
Proof.
  destruct r as [s|e s|]; cbn [after caughtByEnd]; intros H Heq;
    [congruence| |done].
  assert (s' = end_ (Some e) None s) as -> by congruence. by apply end_inv.
Qed.

(** *** Taking a settled fetch off the list *)

Lemma elem_of_removeFetch f g l : g ∈ removeFetch f l → g ∈ l.
Proof.
  induction l as [|h l IH]; simpl; [done|].
  case_decide as Hfg; [by right|].
  intros [->|Hg]%elem_of_cons; [by left|]. right. by apply IH.
Qed.

Lemma removeFetch_NoDup f l :
  NoDup (f_terms <$> l) → NoDup (f_terms <$> removeFetch f l).
Proof.
  induction l as [|h l IH]; simpl; [done|].
  intros [Hh Hl]%NoDup_cons. case_decide as Hfg; [done|].
  simpl. apply NoDup_cons. split; [|by apply IH].
  intros (g & Hg1 & Hg2)%list_elem_of_fmap. apply Hh.
  apply list_elem_of_fmap. exists g. split; [done|].
  by eapply elem_of_removeFetch.
Qed.

Lemma removeFetch_other f g l :
  NoDup (f_terms <$> l) → f ∈ l → g ∈ removeFetch f l →
  f_terms g ≠ f_terms f.
Proof.
  induction l as [|h l IH]; simpl; [by intros _ ?%elem_of_nil|].
  intros [Hh Hl]%NoDup_cons Hf. case_decide as Hfg.
  - subst h. intros Hg E. apply Hh. apply list_elem_of_fmap. by exists g.
  - apply elem_of_cons in Hf as [->|Hf]; [done|].
    intros [->|Hg]%elem_of_cons; [|by apply IH].
    intros E. apply Hh. apply list_elem_of_fmap. by exists f.
Qed.

(** The state in which the [then] callback starts: the fetch is off the
    list of pending ones. *)
Lemma settle_inv f s :
  session_inv s → f ∈ pending s →
  session_inv (set_pending (removeFetch f (pending s)) s) ∧ f_page f ≠ 0%nat
  ∧ ∀ g, g ∈ removeFetch f (pending s) → f_terms g ≠ f_terms f.
Proof.
  intros [I1 I2 I3 I4 I5 I6] Hf. split; [|split].
  - split; simpl; try done.
    + intros g Hg%elem_of_removeFetch. by apply I2.
    + intros g Hg%elem_of_removeFetch. by apply I3.
    + by apply removeFetch_NoDup.
  - by apply I2.
  - intros g. by apply removeFetch_other.
Qed.

Lemma unmark_inv t s :
  session_inv s → (∀ g, g ∈ pending s → f_terms g ≠ t) →
  session_inv (set_loadingNextPage (loadingNextPage s ∖ {[ t ]}) s).
Proof.
  intros [I1 I2 I3 I4 I5 I6] Ht. split; simpl; try done.
  intros g Hg. apply elem_of_difference. split; [by apply I3|].
  intros ?%elem_of_singleton. by eapply Ht.
Qed.

Lemma loadNextPage_then_inv f r fuel s :
  session_inv s → f_page f ≠ 0%nat →
  (∀ g, g ∈ pending s → f_terms g ≠ f_terms f) →
  after (loadNextPage_then f r fuel s) session_inv.
Proof.
  intros H Hf Hg. pose proof (unmark_inv _ _ H Hg) as Hu.
  destruct (decide (f_terms f = tid (terms s))) as [Hc|Hc].
  - rewrite loadNextPage_then_current by done.
    apply updateList_inv. destruct Hu as [I1 I2 I3 I4 I5 I6]. unfold accepted.
    destruct (cfg_cache (cfg s)); (split; simpl; try done).
    intros q e [[<- <-]|[_ Hq]]%lookup_insert_Some; [done|]. by eapply I1.
  - rewrite loadNextPage_then_stale by done. exact Hu.
Qed.

Section SessionInvariant.

Variable fuzzy : list item → list string → list item.

Lemma filterDataset_inv fuel s :
  session_inv s → after (filterDataset fuzzy fuel s) session_inv.
Proof.
  intros H. unfold filterDataset. simpl.
  destruct (truthy (cfg_data (cfg s))) eqn:Hd; [destruct (dataset s)|].
  - apply updateList_inv. by apply session_inv_same with s.
  - destruct (truthy (cfg_search (cfg s))); simpl.
    + apply loadNextPage_inv. by apply session_inv_same with s.
    + by apply session_inv_same with s.
  - destruct (truthy (cfg_search (cfg s))); simpl.
    + apply loadNextPage_inv. by apply session_inv_same with s.
    + by apply session_inv_same with s.
Qed.

Lemma onChangeLine_inv dline dpage fuel s :
  session_inv s → after (onChangeLine dline dpage fuel s) session_inv.
Proof.
  intros H. unfold onChangeLine. apply updateList_inv.
  repeat case_match; by apply session_inv_same with s.
Qed.

Lemma onChangeInput_inv chars position modified s :
  session_inv s → session_inv (onChangeInput chars position modified s).
Proof.
  intros H. unfold onChangeInput.
  destruct modified; by apply session_inv_same with s.
Qed.

Lemma handle_inv fuel ev s s' :
  session_inv s → handle fuzzy fuel ev s = Some s' → session_inv s'.
Proof.
  intros H. destruct ev; simpl.
  - destruct (listening s); from_some; [|done].
    by apply onChangeInput_inv.
  - destruct (listening s); [|by from_some].
    apply uncaughtIn_inv. by apply onChangeLine_inv.
  - destruct (listening s); from_some; [|done]. by apply end_inv.
  - destruct (listening s); from_some; [|done]. by apply end_inv.
  - destruct (stdinHooked s); from_some; [|done]. by apply end_inv.
  - destruct (dataPending s); [|by from_some].
    destruct (checkDataset items) as [e|ds].
    + from_some. apply end_inv. by apply session_inv_same with s.
    + apply caughtByEnd_inv, filterDataset_inv.
      by apply session_inv_same with s.
  - destruct (dataPending s); from_some; [|done].
    apply end_inv. by apply session_inv_same with s.
  - case_bool_decide as Hf; [|by from_some].
    destruct (settle_inv f s H Hf) as (H1 & H2 & H3).
    by apply caughtByEnd_inv, loadNextPage_then_inv.
  - case_bool_decide as Hf; from_some; [|done].
    apply end_inv. by apply (settle_inv f s H Hf).
Qed.

Lemma tick_inv fuel t s s' :
  session_inv s → tick fuzzy fuel t s = Some s' → session_inv s'.
Proof.
  intros H. unfold tick, expire.
  destruct (halted s); [by from_some|].
  destruct (timer s) as [d|]; [destruct (d <=? t)|]; simpl;
    try (from_some; destruct (halted s); by apply session_inv_same with s).
  destruct (uncaughtIn _) as [s1|] eqn:E; simpl; [|done].
  from_some. apply uncaughtIn_inv in E.
  - destruct (halted s1); [done|]. by apply session_inv_same with s1.
  - apply filterDataset_inv. by apply session_inv_same with s.
Qed.

Lemma deliver_inv fuel t ev s s' :
  session_inv s → deliver fuzzy fuel t ev s = Some s' → session_inv s'.
Proof.
  intros H. unfold deliver.
  destruct (tick fuzzy fuel t s) as [s1|] eqn:E; simpl; [|done].
  apply tick_inv in E; [|done].
  destruct (halted s1); [by from_some|]. by apply handle_inv.
Qed.

Lemma create_inv fuel c s : create fuel c = Some s → session_inv s.
Proof.
  assert (∀ s0 : state,
            cachedResults s0 = ∅ → pending s0 = [] →
            (listening s0 = true → settled s0 = None ∧ 0 ≤ cfg_size (cfg s0)) →
            session_inv s0) as Hinit.
  { intros s0 Hc Hp Hl. split; rewrite ?Hc, ?Hp.
    - intros q e. by rewrite lookup_empty.
    - intros f Hf. by apply elem_of_nil in Hf.
    - intros f Hf. by apply elem_of_nil in Hf.
    - constructor.
    - intros H. by apply Hl.
    - intros H. by apply Hl. }
  unfold create.
  repeat (case_match; [from_some; by apply Hinit|]).
  case_match eqn:Hd.
  - from_some. apply Hinit; simpl; try done. intros _. split; [done|lia].
  - apply uncaughtIn_inv, loadNextPage_inv.
    apply Hinit; simpl; try done. intros _. split; [done|lia].
Qed.

Lemma reachable_inv fuel c s : reachable fuzzy fuel c s → session_inv s.
Proof.
  induction 1 as [s H|s t s' _ IH H|s t ev s' _ IH H].
  - by eapply create_inv.
  - by eapply tick_inv.
  - by eapply deliver_inv.
Qed.

Lemma run_reachable fuel c evs : ∀ s s',
  reachable fuzzy fuel c s → run fuzzy fuel evs s = Some s' →
  reachable fuzzy fuel c s'.
Proof.
  induction evs as [|[t ev] evs IH]; intros s s' Hr; simpl.
  - intros Heq. apply (inj Some) in Heq. by subst.
  - destruct (deliver fuzzy fuel t ev s) as [s1|] eqn:E; simpl; [|done].
    apply IH. by eapply reach_deliver.
Qed.

(** The state a session ends in is a state of that session. *)
Lemma session_reachable fuel c evs s :
  session fuzzy fuel c evs = Some s → reachable fuzzy fuel c s.
Proof.
  unfold session. destruct (create fuel c) as [s0|] eqn:E; simpl; [|done].
  apply run_reachable. by apply reach_create.
Qed.

End SessionInvariant.

(** ** The result set under redraws and requests *)

Lemma display_only_results s s' : display_only s s' → results s' = results s.
Proof.
  intros [H _]. unfold results.
  field_of H found. field_of H count. field_of H loadedPages.
  field_of H morePages. congruence.
Qed.

Lemma request_results s : results (request s) = results s.
Proof. unfold request. by case_bool_decide. Qed.

Lemma request_cachedResults s : cachedResults (request s) = cachedResults s.
Proof. unfold request. by case_bool_decide. Qed.

Lemma cacheHit_loaded s : loadedPages s ≠ 0%nat → cacheHit s = None.
Proof. unfold cacheHit. by destruct (loadedPages s). Qed.

(** Once a page is loaded, [updateList] leaves the result set alone. *)
Lemma updateList_loaded fuel s :
  loadedPages s ≠ 0%nat →
  after (updateList fuel s) (fun s' => results s' = results s).
Proof.
  intros Hl. rewrite updateList_unfold.
  eapply after_bind; [apply redraw_display_only | apply display_only_results |].
  intros s1 H1. pose proof (display_only_results _ _ H1) as E.
  destruct (lastVisible s1); simpl; [|done].
  destruct fuel as [|fuel]; [exact I|].
  rewrite loadNextPage_miss; simpl.
  - by rewrite request_results.
  - apply cacheHit_loaded. unfold results in E. congruence.
Qed.

Lemma updateList_loaded_returns fuel s :
  loadedPages s ≠ 0%nat → returns (updateList (S fuel) s).
Proof.
  intros Hl. rewrite updateList_unfold.
  eapply returns_bind; [apply redraw_returns | apply redraw_display_only |].
  intros s1 H1. destruct (lastVisible s1); [|done].
  apply loadNextPage_returns_loaded.
  pose proof (display_only_results _ _ H1) as E. unfold results in E. congruence.
Qed.

(** The cache is written by the [then] callback only. *)
Lemma loadNextPage_cachedResults fuel s :
  after (loadNextPage fuel s) (fun s' => cachedResults s' = cachedResults s).
Proof.
  eapply after_mono; [apply loadNextPage_frame|].
  intros s' H. unfold frame in H. congruence.
Qed.


(** *** What has been written to the display only grows *)

Lemma display_only_shown_le s s' : display_only s s' → shown_le s s'.
Proof.
  intros [_ (l & E & _)]. unfold shown_le, displayed.
  rewrite E, List.filter_app, length_app. lia.
Qed.

Lemma request_shown_le s : shown_le s (request s).
Proof.
  unfold request, shown_le, displayed, updateStatus.
  case_bool_decide; simpl; lia.
Qed.

Lemma loadNextPage_shown_le fuel s : after (loadNextPage fuel s) (shown_le s).
Proof.
  apply loadNextPage_relates; unfold shown_le.
  - intros. lia.
  - apply display_only_shown_le.
  - intros. by simpl.
  - intros. apply request_shown_le.
Qed.

Lemma redraw_shown_lt s :
  after (redraw s)
    (fun s' => (length (displayed s) < length (displayed s'))%nat).
Proof.
  unfold redraw.
  set (s0 := updateStatus _ _ s).
  assert (length (displayed s) < length (displayed s0))%nat as H0.
  { unfold s0, updateStatus, displayed. simpl. lia. }
  eapply after_bind; [apply renderRows_display_only | |].
  - intros s1 H1%display_only_shown_le. unfold shown_le in H1. lia.
  - intros s1 H1%display_only_shown_le. cbn [after].
    match goal with
    | |- context [clearRows ?a ?b s1] =>
        pose proof (display_only_shown_le _ _ (clearRows_display_only b a s1))
          as H2
    end.
    unfold shown_le in *. lia.
Qed.

Lemma updateList_shown_lt fuel s :
  after (updateList fuel s)
    (fun s' => (length (displayed s) < length (displayed s'))%nat).
Proof.
  rewrite updateList_unfold.
  pose proof (redraw_shown_lt s) as H.
  destruct (redraw s) as [s1|e s1|]; simpl in *; [|done|done].
  destruct (lastVisible s1); simpl; [|done].
  eapply after_mono; [apply loadNextPage_shown_le|].
  unfold shown_le. intros. lia.
Qed.

(** ** Exceptions handed to [end] *)

Lemma caughtByEnd_after r s' (P : state → Prop) :
  after r P → (∀ e s, P s → P (end_ (Some e) None s)) →
  caughtByEnd r = Some s' → P s'.
Proof. destruct r as [s|e s|]; simpl; intros H He [= <-]; auto. Qed.

Lemma end_results err v s : results (end_ err v s) = results s.
Proof.
  unfold end_, reject, resolve. simpl.
  by destruct err as [reason|]; [destruct (error_truthy reason)|]; destruct (settled s).
Qed.

Lemma end_displayed err v s : displayed (end_ err v s) = displayed s.
Proof.
  unfold end_, reject, resolve. simpl.
  by destruct err as [reason|]; [destruct (error_truthy reason)|]; destruct (settled s).
Qed.

Lemma caughtByEnd_returns r : returns r → ∃ s', caughtByEnd r = Some s'.
Proof. destruct r; simpl; [eauto|eauto|done]. Qed.

(** * The claims *)

(** ** Race check *)

(** C1.  A page fetch whose [then] callback runs when the controller's
    [terms] is another object than the one captured at call time is
    discarded: [found], [count], [loadedPages] and [morePages] stay as they
    are, nothing is cached or displayed, and the state the callback leaves
    does not depend on what was fetched, so that no later state of the
    session does either. *)
Theorem stale_completion_discarded fuzzy fuel f r s :
  f_terms f ≠ tid (terms s) →
  ∃ s', handle fuzzy fuel (SearchResolved f r) s = Some s'
        ∧ found s' = found s ∧ count s' = count s
        ∧ loadedPages s' = loadedPages s ∧ morePages s' = morePages s
        ∧ cachedResults s' = cachedResults s ∧ effects s' = effects s
        ∧ terms s' = terms s
        ∧ ∀ r' evs,
            handle fuzzy fuel (SearchResolved f r') s ≫= run fuzzy fuel evs
            = run fuzzy fuel evs s'.
Proof.
  intros Hstale. simpl. case_bool_decide as Hp.
  - rewrite loadNextPage_then_stale by done. simpl.
    eexists. split; [reflexivity|]. repeat split.
    intros r' evs. by rewrite loadNextPage_then_stale.
  - exists s. repeat split. 
Qed.

Lemma stale_completion_discarded_witness :
  f_terms first_fetch ≠ tid (terms typed_x)
  ∧ ∃ s', handle sample_fuzzy 2 (SearchResolved first_fetch page_one) typed_x
          = Some s'
          ∧ found s' = found typed_x ∧ count s' = count typed_x.
Proof.
  assert (f_terms first_fetch ≠ tid (terms typed_x)) as H
    by (vm_compute; lia).
  split; [exact H|].
  destruct (stale_completion_discarded sample_fuzzy 2 first_fetch page_one
              typed_x H) as (s' & E & Hf & Hc & _).
  exists s'. auto.
Defined.

(** ** Completions after the operation has resolved *)

(** C2, as the claim states it, fails: the user cancels while the first
    fetch is in flight, the operation resolves and the listeners are
    detached, and the fetch's completion is applied all the same: it fills
    [found], sets [count], [loadedPages] and [morePages], redraws the list
    and even asks the collaborator for page 2. *)
Lemma late_completion_applied_after_cancel :
  session sample_fuzzy 2 search_config [(5, Cancel)] = Some cancelled
  ∧ settled cancelled = Some (Resolved None)
  ∧ listening cancelled = false
  ∧ pending cancelled = [first_fetch]
  ∧ results cancelled = ([], 0, 0%nat, false)
  ∧ (s' ← handle sample_fuzzy 2 (SearchResolved first_fetch page_one) cancelled;
     Some (results s', length (displayed s') - length (displayed cancelled),
           searches s')%nat)
    = Some ((indexed 0 (data page_one), 12, 1%nat, true), 12%nat,
            [FxSearch "" 2; FxSearch "" 1]).
Proof. vm_compute. repeat split. Qed.

(** C2, amended.  Select and cancel detach the input listeners, so that no
    input event reaches the controller afterwards; a fetch completion that
    arrives afterwards is treated as at any other time: dropped when the
    terms object it captured is no longer the current one, applied to
    [found], [count], [loadedPages] and [morePages] and followed by a redraw
    when it is. *)
Theorem resolution_detaches_input_only fuzzy fuel c s0 s :
  reachable fuzzy (S fuel) c s0 →
  s = onSelect s0 ∨ s = onEnd s0 →
  listening s = false
  ∧ (∀ ev, is_input ev = true → handle fuzzy (S fuel) ev s = Some s)
  ∧ ∀ f r, f ∈ pending s →
      ∃ s', handle fuzzy (S fuel) (SearchResolved f r) s = Some s'
        ∧ (f_terms f ≠ tid (terms s) →
             results s' = results s ∧ effects s' = effects s)
        ∧ (f_terms f = tid (terms s) →
             results s' =
               (found s ++ indexed (length (found s)) (data r),
                total r, f_page f, more r)
             ∧ (length (displayed s) < length (displayed s'))%nat).
Proof.
  intros Hr Hs.
  assert (listening s = false) as Hl.
  { destruct Hs as [-> | ->]; unfold onSelect, onEnd, end_, resolve; simpl;
      by destruct (settled s0). }
  assert (session_inv s) as Hinv.
  { apply reachable_inv in Hr.
    destruct Hs as [-> | ->]; by apply end_inv. }
  split; [exact Hl|]. split.
  - intros [] Hev; try discriminate; simpl; by rewrite Hl.
  - intros f r Hf. pose proof (inv_pending _ Hinv f Hf) as Hpage.
    simpl. rewrite bool_decide_eq_true_2 by done.
    set (s1 := set_pending (removeFetch f (pending s)) s).
    destruct (decide (f_terms f = tid (terms s))) as [Hcur|Hstale].
    + rewrite loadNextPage_then_current by done.
      destruct (caughtByEnd_returns (updateList (S fuel) (accepted f r s1)))
        as [s' Hs'].
      { apply updateList_loaded_returns.
        pose proof (accepted_results f r s1) as E. unfold results in E.
        congruence. }
      exists s'. split; [done|]. split; [done|]. intros _. split.
      * eapply (caughtByEnd_after _ _
                  (fun s' => results s' = results (accepted f r s1)))
          in Hs'.
        -- by rewrite Hs', accepted_results.
        -- apply updateList_loaded.
           pose proof (accepted_results f r s1) as E. unfold results in E.
           congruence.
        -- intros e s2 <-. apply end_results.
      * eapply (caughtByEnd_after _ _
                  (fun s' => (length (displayed s) < length (displayed s'))%nat))
          in Hs'; [done| |].
        -- pose proof (updateList_shown_lt (S fuel) (accepted f r s1)) as H.
           by rewrite accepted_displayed in H.
        -- intros e s2 H. by rewrite end_displayed.
    + rewrite loadNextPage_then_stale by done. simpl.
      eexists. split; [reflexivity|]. split; [done|]. by intros ?.
Qed.

Lemma resolution_detaches_input_only_witness :
  reachable sample_fuzzy 2 search_config search_started
  ∧ listening (onEnd search_started) = false
  ∧ handle sample_fuzzy 2 Select (onEnd search_started)
    = Some (onEnd search_started).
Proof.
  assert (reachable sample_fuzzy 2 search_config search_started) as Hr
    by (apply reach_create; vm_compute; reflexivity).
  destruct (resolution_detaches_input_only sample_fuzzy 1 search_config
              search_started (onEnd search_started) Hr (or_intror eq_refl))
    as (Hl & Hin & _).
  split; [exact Hr|]. split; [exact Hl|]. by apply Hin.
Defined.

(** ** One fetch per query object *)

Lemma display_only_held_back s s' : display_only s s' → held_back s s'.
Proof.
  intros H. pose proof (display_only_searches _ _ H) as Hs.
  destruct H as [H _].
  field_of H terms. field_of H pending. field_of H loadingNextPage.
  by split.
Qed.

Lemma request_held_back s : held_back s (request s).
Proof.
  unfold request. case_bool_decide as Hm; split; try done.
Qed.

Lemma loadNextPage_held_back fuel s : after (loadNextPage fuel s) (held_back s).
Proof.
  apply loadNextPage_relates.
  - intros s1 s2 s3 [T1 H1] [T2 H2]. split; [congruence|].
    intros Hm. destruct (H1 Hm) as (A1 & B1 & C1).
    destruct H2 as (A2 & B2 & C2); [by rewrite T1, C1|].
    repeat split; congruence.
  - apply display_only_held_back.
  - intros s0 e _. by split.
  - intros s0 _. apply request_held_back.
Qed.

(** C3.  In every state of a session: while a fetch for the current terms
    object is in flight, a call of [loadNextPage] returns without calling
    the collaborator and without adding a pending fetch; and when no fetch
    for that object is in flight and the cache does not answer, two calls in
    a row call the collaborator once, for the next page. *)
Theorem loadNextPage_once_per_query fuzzy fuel c s :
  reachable fuzzy (S (S fuel)) c s →
  (∀ f, f ∈ pending s → f_terms f = tid (terms s) →
     returns (loadNextPage (S (S fuel)) s)
     ∧ after (loadNextPage (S (S fuel)) s)
         (fun s' => searches s' = searches s ∧ pending s' = pending s))
  ∧ (tid (terms s) ∉ loadingNextPage s → cacheHit s = None →
     ∃ s1 s2,
       loadNextPage (S (S fuel)) s = Done s1
       ∧ loadNextPage (S (S fuel)) s1 = Done s2
       ∧ searches s1
         = FxSearch (join (terms s)) (S (loadedPages s)) :: searches s
       ∧ pending s1
         = pending s
           ++ [mkFetch (tid (terms s)) (join (terms s)) (S (loadedPages s))]
       ∧ searches s2 = searches s1 ∧ pending s2 = pending s1).
Proof.
  intros Hinv%reachable_inv. split.
  - intros f Hf Hcur. split.
    + apply loadNextPage_returns. apply (inv_cache _ Hinv).
    + eapply after_mono; [apply loadNextPage_held_back|].
      intros s' [_ H]. destruct H as (A & B & _); [|done].
      rewrite <- Hcur. by apply (inv_marked _ Hinv).
  - intros Hm Hc. exists (request s), (request (request s)).
    assert (request s
            = set_pending
                (pending s
                 ++ [mkFetch (tid (terms s)) (join (terms s)) (S (loadedPages s))])
                (emit (FxSearch (join (terms s)) (S (loadedPages s)))
                   (set_loadingNextPage ({[ tid (terms s) ]} ∪ loadingNextPage s)
                      (updateStatus None (Some true) s)))) as E.
    { unfold request. by rewrite bool_decide_eq_false_2. }
    split; [by apply loadNextPage_miss|].
    split.
    { apply loadNextPage_miss. rewrite E. exact Hc. }
    split; [by rewrite E|]. split; [by rewrite E|].
    destruct (request_held_back (request s)) as [_ H].
    destruct H as (A & B & _); [|done].
    rewrite E. simpl. apply elem_of_union_l. by apply elem_of_singleton.
Qed.

Lemma loadNextPage_once_per_query_witness :
  reachable sample_fuzzy 2 search_config search_started
  ∧ first_fetch ∈ pending search_started
  ∧ f_terms first_fetch = tid (terms search_started)
  ∧ returns (loadNextPage 2 search_started).
Proof.
  assert (reachable sample_fuzzy 2 search_config search_started) as Hr
    by (apply reach_create; vm_compute; reflexivity).
  assert (first_fetch ∈ pending search_started) as Hf
    by (vm_compute; apply list_elem_of_here).
  assert (f_terms first_fetch = tid (terms search_started)) as Hc
    by (vm_compute; reflexivity).
  split; [exact Hr|]. split; [exact Hf|]. split; [exact Hc|].
  exact (proj1 (proj1 (loadNextPage_once_per_query sample_fuzzy 0
                         search_config search_started Hr)
                  first_fetch Hf Hc)).
Defined.

(** ** The query cache *)

Lemma request_searches s :
  searches (request s)
  = if bool_decide (tid (terms s) ∈ loadingNextPage s) then searches s
    else FxSearch (join (terms s)) (S (loadedPages s)) :: searches s.
Proof. unfold request. by case_bool_decide. Qed.

Lemma end_cachedResults err v s :
  cachedResults (end_ err v s) = cachedResults s.
Proof.
  unfold end_, reject, resolve. simpl.
  by destruct err as [reason|]; [destruct (error_truthy reason)|]; destruct (settled s).
Qed.



(** What a cache hit leaves: the entry's values, and at most the one call
    of the collaborator that the redraw's test for the last row asks for. *)
Lemma loadNextPage_restores fuel s e :
  cacheHit s = Some e → c_loadedPages e ≠ 0%nat →
  after (loadNextPage (S (S fuel)) s)
    (fun s' =>
       results s' = (c_found e, c_count e, c_loadedPages e, c_morePages e)
       ∧ ∃ l, searches s' = l ++ searches s
              ∧ (l = []
                 ∨ l = [FxSearch (join (terms s)) (S (c_loadedPages e))])).
Proof.
  intros He Hpos. rewrite (loadNextPage_hit _ _ _ He).
  rewrite updateList_unfold.
  pose proof (redraw_display_only (restore e s)) as Hd.
  destruct (redraw (restore e s)) as [s1|err s1|];
    cbn [andThen after] in *; [| |exact I].
  - pose proof (display_only_results _ _ Hd) as Hres.
    pose proof (display_only_searches _ _ Hd) as Hsea.
    destruct Hd as [Hcore _].
    field_of Hcore terms. field_of Hcore loadingNextPage.
    destruct (lastVisible s1); cbn [after].
    + assert (cacheHit s1 = None) as Hmiss.
      { apply cacheHit_loaded. unfold results in Hres. simpl in Hres.
        congruence. }
      rewrite loadNextPage_miss by exact Hmiss. cbn [after].
      rewrite request_results, request_searches, Hres, Hsea, E.
      split; [done|].
      change (searches (restore e s)) with (searches s).
      change (terms (restore e s)) with (terms s).
      case_bool_decide.
      * exists []. split; [done|]. by left.
      * eexists [_]. split; [reflexivity|]. right.
        unfold results in Hres. simpl in Hres.
        assert (loadedPages s1 = c_loadedPages e) as -> by congruence. done.
    + rewrite Hres, Hsea. split; [done|]. exists []. split; [done|]. by left.
  - pose proof (display_only_results _ _ Hd) as Hres.
    pose proof (display_only_searches _ _ Hd) as Hsea.
    rewrite Hres, Hsea. split; [done|]. exists []. split; [done|]. by left.
Qed.




(** ** Moving the selection *)

(** C5, as the claim states it, fails: the invariant before the move does
    not bound [line] by the length of [found].  At the end of the session
    [late_dataset] the selection is on row 3 of a window starting at row 2,
    and [found] has one item; one more step down moves the selection to row
    0 and leaves the window at row 2. *)
Lemma move_leaves_window_behind :
  session sample_fuzzy 2 both_config late_dataset = Some scrolled
  ∧ cfg_size (cfg scrolled) = 2
  ∧ viewport_ok 2 scrolled
  ∧ length (found scrolled) = 1%nat
  ∧ match onChangeLine 1 0 2 scrolled with
    | Done s' =>
        line s' = clamp 0 (Z.of_nat (length (found scrolled)) - 1)
                    (line scrolled + 1 + 0 * 2)
        ∧ line s' = 0 ∧ start s' = 2 ∧ ¬ viewport_ok 2 s'
    | _ => False
    end.
Proof.
  split; [vm_compute; reflexivity|]. split; [vm_compute; reflexivity|].
  split; [vm_compute; repeat split; discriminate|].
  split; [vm_compute; reflexivity|].
  vm_compute. repeat split. intros (_ & H & _). by apply H.
Qed.

(** C5, amended.  Given [0 <= start <= line < start + size] and, in
    addition, that [line] is no greater than [max 0 (found.length - 1)]
    before the move, the new line is
    [clamp 0 (found.length - 1) (line + deltaLine + deltaPage * size)] and
    the invariant holds again after the move; the call returns whenever
    every cache entry has a page loaded. *)
Theorem move_keeps_viewport dline dpage fuel s :
  viewport_ok (cfg_size (cfg s)) s →
  line s ≤ Z.max 0 (Z.of_nat (length (found s)) - 1) →
  after (onChangeLine dline dpage fuel s)
    (fun s' =>
       line s' = clamp 0 (Z.of_nat (length (found s)) - 1)
                   (line s + dline + dpage * cfg_size (cfg s))
       ∧ cfg_size (cfg s') = cfg_size (cfg s)
       ∧ viewport_ok (cfg_size (cfg s)) s')
  ∧ ((∀ q e, cachedResults s !! q = Some e → c_loadedPages e ≠ 0%nat) →
     returns (onChangeLine dline dpage (S (S fuel)) s)).
Proof.
  intros (H0 & H1 & H2) Hb. unfold onChangeLine.
  set (size := cfg_size (cfg s)) in *.
  set (nl := Z.max 0 (Z.min (Z.of_nat (length (found s)) - 1)
                            (line s + dline + dpage * size))).
  set (s1 := set_line nl s).
  cbv zeta.
  match goal with
  | |- after (updateList _ ?s2) _ ∧ _ => set (s' := s2)
  end.
  assert (line s' = nl ∧ cfg s' = cfg s ∧ cachedResults s' = cachedResults s
          ∧ 0 ≤ start s' ∧ start s' ≤ nl < start s' + size) as (Hl & Hc & Hk & Hv).
  { unfold s'. change (line s1) with nl. change (start s1) with (start s).
    change (cfg_size (cfg s1)) with size.
    destruct (((dline <? 0) || (dpage <? 0)) && (nl <? start s)) eqn:Hup;
      [|destruct (((0 <? dline) || (0 <? dpage)) && (start s + size <=? nl))
          eqn:Hdown];
      simpl; (split; [done|]); (split; [done|]); (split; [done|]).
    - unfold nl. lia.
    - apply andb_true_iff in Hdown as [_ Hd%Z.leb_le]. lia.
    - split; [lia|].
      assert (size > 0) by lia.
      assert (start s ≤ nl).
      { destruct (Z.lt_ge_cases nl (start s)) as [Hlt|]; [|done].
        exfalso. apply andb_false_iff in Hup as [Hup|Hup%Z.ltb_ge]; [|lia].
        apply orb_false_iff in Hup as [?%Z.ltb_ge ?%Z.ltb_ge].
        unfold nl in Hlt. nia. }
      assert (nl < start s + size).
      { destruct (Z.lt_ge_cases nl (start s + size)) as [|Hge]; [done|].
        exfalso. apply andb_false_iff in Hdown as [Hd|Hd%Z.leb_gt]; [|lia].
        apply orb_false_iff in Hd as [?%Z.ltb_ge ?%Z.ltb_ge].
        unfold nl in Hge. nia. }
      lia. }
  split.
  - eapply after_mono; [apply updateList_frame|].
    intros s2 Hf. unfold frame in Hf.
    assert (cfg s2 = cfg s' ∧ line s2 = line s' ∧ start s2 = start s')
      as (E1 & E2 & E3) by (repeat split; congruence).
    unfold viewport_ok, clamp. rewrite E1, E2, E3, Hl, Hc. fold size. fold nl.
    repeat split; lia.
  - intros Hcache. apply updateList_returns. by rewrite Hk.
Qed.

Lemma move_keeps_viewport_witness :
  (line narrow_shown = 1 ∧ start narrow_shown = 0
   ∧ viewport_ok (cfg_size (cfg narrow_shown)) narrow_shown
   ∧ line narrow_shown
     ≤ Z.max 0 (Z.of_nat (length (found narrow_shown)) - 1)
   ∧ onChangeLine 1 0 2 narrow_shown = Done narrow_scrolled
   ∧ line narrow_scrolled = 2 ∧ start narrow_scrolled = 1
   ∧ viewport_ok 2 narrow_scrolled)
  ∧ (viewport_ok (cfg_size (cfg narrow_scrolled)) narrow_scrolled
     ∧ line narrow_scrolled
       ≤ Z.max 0 (Z.of_nat (length (found narrow_scrolled)) - 1)
     ∧ after (onChangeLine 0 (-1) 2 narrow_scrolled)
         (fun s' => line s' = 0 ∧ viewport_ok 2 s')).
Proof.
  assert (viewport_ok (cfg_size (cfg narrow_shown)) narrow_shown) as Hv
    by (vm_compute; repeat split; discriminate).
  assert (line narrow_shown
          ≤ Z.max 0 (Z.of_nat (length (found narrow_shown)) - 1)) as Hb
    by (vm_compute; discriminate).
  assert (onChangeLine 1 0 2 narrow_shown = Done narrow_scrolled)
    as E by (vm_compute; reflexivity).
  assert (viewport_ok (cfg_size (cfg narrow_scrolled)) narrow_scrolled) as Hv'
    by (vm_compute; repeat split; discriminate).
  assert (line narrow_scrolled
          ≤ Z.max 0 (Z.of_nat (length (found narrow_scrolled)) - 1)) as Hb'
    by (vm_compute; discriminate).
  split.
  - split; [vm_compute; reflexivity|]. split; [vm_compute; reflexivity|].
    split; [exact Hv|]. split; [exact Hb|]. split; [exact E|].
    pose proof (proj1 (move_keeps_viewport 1 0 2 narrow_shown
                         Hv Hb)) as H.
    rewrite E in H. destruct H as (Hl & _ & Hok).
    split; [rewrite Hl; vm_compute; reflexivity|].
    split; [vm_compute; reflexivity|]. exact Hok.
  - split; [exact Hv'|]. split; [exact Hb'|].
    eapply after_mono;
      [exact (proj1 (move_keeps_viewport 0 (-1) 2 narrow_scrolled
                       Hv' Hb'))|].
    intros s' (Hl & _ & Hok). split; [rewrite Hl; vm_compute; reflexivity|].
    exact Hok.
Defined.

(** ** The index of an item *)

Lemma dense_nil : dense [].
Proof. intros i it H. by rewrite lookup_nil in H. Qed.

Lemma dense_append l page : dense l → dense (l ++ indexed (length l) page).
Proof.
  intros Hl i it. destruct (decide (i < length l)%nat) as [Hi|Hi].
  - rewrite lookup_app_l by done. apply Hl.
  - rewrite lookup_app_r by lia. unfold indexed.
    rewrite list_lookup_imap.
    destruct (page !! (i - length l)%nat) as [x|]; simpl; [|done].
    intros [= <-]. simpl. f_equal. lia.
Qed.

Lemma indexed_index from page i it :
  indexed from page !! i = Some it → index it = Some (Z.of_nat (from + i)).
Proof.
  unfold indexed. rewrite list_lookup_imap.
  destruct (page !! i) as [x|]; simpl; [|done].
  intros [= <-]. simpl. f_equal. lia.
Qed.

Section Indices.

Variable fuzzy : list item → list string → list item.
Variable c : config.
Hypothesis fuzzy_dense :
  truthy (cfg_data c) = false ∨ ∀ items ts, dense (fuzzy items ts).

Lemma index_inv_same s s' :
  cfg s' = cfg s → found s' = found s → cachedResults s' = cachedResults s →
  index_inv c s → index_inv c s'.
Proof.
  intros Hg Hf Hc (I1 & I2 & I3). unfold index_inv.
  by rewrite Hg, Hf, Hc.
Qed.

Lemma index_inv_display s s' :
  display_only s s' → index_inv c s → index_inv c s'.
Proof.
  intros [H _]. apply index_inv_same.
  - by field_of H cfg.
  - by field_of H found.
  - by field_of H cachedResults.
Qed.

Lemma index_inv_request s : index_inv c s → index_inv c (request s).
Proof.
  apply index_inv_same; unfold request; by case_bool_decide.
Qed.

Lemma index_inv_restore s e :
  cacheHit s = Some e → index_inv c s → index_inv c (restore e s).
Proof.
  intros He (I1 & I2 & I3). unfold cacheHit in He.
  destruct (loadedPages s); [|discriminate].
  split; [done|]. split; [|done]. simpl. by eapply I3.
Qed.

Lemma loadNextPage_index_inv fuel s :
  index_inv c s → after (loadNextPage fuel s) (index_inv c).
Proof.
  intros H.
  eapply after_mono;
    [apply loadNextPage_relates
       with (R := fun s s' => index_inv c s → index_inv c s')|]; auto.
  - intros. by apply index_inv_display with s0.
  - intros. by apply index_inv_restore.
  - intros. by apply index_inv_request.
Qed.

Lemma updateList_index_inv fuel s :
  index_inv c s → after (updateList fuel s) (index_inv c).
Proof.
  intros H.
  eapply after_mono;
    [apply updateList_relates
       with (R := fun s s' => index_inv c s → index_inv c s')|]; auto.
  - intros. by apply index_inv_display with s0.
  - intros. by apply index_inv_restore.
  - intros. by apply index_inv_request.
Qed.

Lemma end_index_inv err v s : index_inv c s → index_inv c (end_ err v s).
Proof.
  apply index_inv_same; unfold end_, reject, resolve; simpl;
    by destruct err as [reason|]; [destruct (error_truthy reason)|]; destruct (settled s).
Qed.

Lemma accepted_index_inv f r s : index_inv c s → index_inv c (accepted f r s).
Proof.
  intros (I1 & I2 & I3). unfold accepted.
  destruct (cfg_cache (cfg s)); (split; [done|]); simpl;
    (split; [by apply dense_append|]); [|done].
  intros q e [[<- <-]|[_ Hq]]%lookup_insert_Some; simpl.
  - by apply dense_append.
  - by eapply I3.
Qed.

Lemma loadNextPage_then_index_inv f r fuel s :
  index_inv c s → after (loadNextPage_then f r fuel s) (index_inv c).
Proof.
  intros H. destruct (decide (f_terms f = tid (terms s))) as [Hc|Hc].
  - rewrite loadNextPage_then_current by done.
    by apply updateList_index_inv, accepted_index_inv.
  - rewrite loadNextPage_then_stale by done. by apply index_inv_same with s.
Qed.

Lemma filterDataset_index_inv fuel s :
  index_inv c s → after (filterDataset fuzzy fuel s) (index_inv c).
Proof.
  intros H. pose proof H as (Hc & I2 & I3). unfold filterDataset. simpl.
  destruct (truthy (cfg_data (cfg s))) eqn:Hd; [destruct (dataset s) as [ds|]|].
  - apply updateList_index_inv. split; [done|]. split; [|done]. simpl.
    unfold filter. rewrite Hd. simpl.
    destruct fuzzy_dense as [Hno|Hyes]; [congruence|apply Hyes].
  - destruct (truthy (cfg_search (cfg s))); simpl.
    + apply loadNextPage_index_inv. split; [done|]. split; [|done].
      apply dense_nil.
    + by apply index_inv_same with s.
  - destruct (truthy (cfg_search (cfg s))); simpl.
    + apply loadNextPage_index_inv. split; [done|]. split; [|done].
      apply dense_nil.
    + by apply index_inv_same with s.
Qed.

Lemma onChangeLine_index_inv dline dpage fuel s :
  index_inv c s → after (onChangeLine dline dpage fuel s) (index_inv c).
Proof.
  intros H. unfold onChangeLine. apply updateList_index_inv.
  repeat case_match; by apply index_inv_same with s.
Qed.

Lemma uncaughtIn_index_inv r s' :
  after r (index_inv c) → uncaughtIn r = Some s' → index_inv c s'.
Proof.
  destruct r as [s|e s|]; cbn [after uncaughtIn]; intros H Heq;
    [congruence| |done].
  assert (s' = set_uncaught (Some e) s) as -> by congruence.
  by apply index_inv_same with s.
Qed.

Lemma caughtByEnd_index_inv r s' :
  after r (index_inv c) → caughtByEnd r = Some s' → index_inv c s'.
Proof.
  intros H. apply caughtByEnd_after; [done|].
  intros. by apply end_index_inv.
Qed.

Lemma handle_index_inv fuel ev s s' :
  index_inv c s → handle fuzzy fuel ev s = Some s' → index_inv c s'.
Proof.
  intros H. destruct ev; simpl.
  - destruct (listening s); from_some; [|done].
    unfold onChangeInput. destruct modified; by apply index_inv_same with s.
  - destruct (listening s); [|by from_some].
    apply uncaughtIn_index_inv. by apply onChangeLine_index_inv.
  - destruct (listening s); from_some; [|done]. by apply end_index_inv.
  - destruct (listening s); from_some; [|done]. by apply end_index_inv.
  - destruct (stdinHooked s); from_some; [|done]. by apply end_index_inv.
  - destruct (dataPending s); [|by from_some].
    destruct (checkDataset items) as [e|ds].
    + from_some. apply end_index_inv. by apply index_inv_same with s.
    + apply caughtByEnd_index_inv, filterDataset_index_inv.
      by apply index_inv_same with s.
  - destruct (dataPending s); from_some; [|done].
    apply end_index_inv. by apply index_inv_same with s.
  - case_bool_decide as Hf; [|by from_some].
    apply caughtByEnd_index_inv, loadNextPage_then_index_inv.
    by apply index_inv_same with s.
  - case_bool_decide as Hf; from_some; [|done].
    apply end_index_inv. by apply index_inv_same with s.
Qed.

Lemma tick_index_inv fuel t s s' :
  index_inv c s → tick fuzzy fuel t s = Some s' → index_inv c s'.
Proof.
  intros H. unfold tick, expire.
  destruct (halted s); [by from_some|].
  destruct (timer s) as [d|]; [destruct (d <=? t)|]; simpl;
    try (from_some; destruct (halted s); by apply index_inv_same with s).
  destruct (uncaughtIn _) as [s1|] eqn:E; simpl; [|done].
  from_some. apply uncaughtIn_index_inv in E.
  - destruct (halted s1); [done|]. by apply index_inv_same with s1.
  - apply filterDataset_index_inv. by apply index_inv_same with s.
Qed.

Lemma deliver_index_inv fuel t ev s s' :
  index_inv c s → deliver fuzzy fuel t ev s = Some s' → index_inv c s'.
Proof.
  intros H. unfold deliver.
  destruct (tick fuzzy fuel t s) as [s1|] eqn:E; simpl; [|done].
  apply tick_index_inv in E; [|done].
  destruct (halted s1); [by from_some|]. by apply handle_index_inv.
Qed.

Lemma create_index_inv fuel s : create fuel c = Some s → index_inv c s.
Proof.
  assert (∀ s0 : state,
            cfg s0 = c → found s0 = [] → cachedResults s0 = ∅ →
            index_inv c s0) as Hinit.
  { intros s0 Hg Hf Hc. split; [done|]. rewrite Hf, Hc.
    split; [apply dense_nil|]. intros q e. by rewrite lookup_empty. }
  unfold create.
  repeat (case_match; [from_some; by apply Hinit|]).
  apply uncaughtIn_index_inv, loadNextPage_index_inv. by apply Hinit.
Qed.

Lemma reachable_index_inv fuel s : reachable fuzzy fuel c s → index_inv c s.
Proof.
  induction 1 as [s H|s t s' _ IH H|s t ev s' _ IH H].
  - by eapply create_index_inv.
  - by eapply tick_index_inv.
  - by eapply deliver_index_inv.
Qed.

End Indices.

(** C6.  In every state of a session whose matcher, where it is used,
    returns dense indices, the items of [found] carry the indices 0, 1, ...,
    length - 1 in order.  A page fetch that completes for the current terms
    object leaves [found] as it was, followed by the fetched items with the
    indices length, length + 1, ...: the items already there keep theirs. *)
Theorem index_dense_and_stable fuzzy fuel c s :
  truthy (cfg_data c) = false ∨ (∀ items ts, dense (fuzzy items ts)) →
  reachable fuzzy (S fuel) c s →
  dense (found s)
  ∧ ∀ f r, f ∈ pending s → f_terms f = tid (terms s) →
      ∃ s', handle fuzzy (S fuel) (SearchResolved f r) s = Some s'
        ∧ found s' = found s ++ indexed (length (found s)) (data r)
        ∧ (∀ i it, found s !! i = Some it → found s' !! i = Some it)
        ∧ (∀ i it, indexed (length (found s)) (data r) !! i = Some it →
             index it = Some (Z.of_nat (length (found s) + i)))
        ∧ dense (found s').
Proof.
  intros Hfuzzy Hr.
  pose proof (reachable_index_inv fuzzy c Hfuzzy _ _ Hr) as (_ & Hd & _).
  pose proof (reachable_inv _ _ _ _ Hr) as Hinv.
  split; [exact Hd|]. intros f r Hf Hcur.
  pose proof (inv_pending _ Hinv f Hf) as Hpage.
  simpl. rewrite bool_decide_eq_true_2 by done.
  set (s1 := set_pending (removeFetch f (pending s)) s).
  rewrite loadNextPage_then_current by done.
  assert (loadedPages (accepted f r s1) ≠ 0%nat) as Hl.
  { pose proof (accepted_results f r s1) as E. unfold results in E.
    congruence. }
  destruct (caughtByEnd_returns (updateList (S fuel) (accepted f r s1)))
    as [s' Hs']; [by apply updateList_loaded_returns|].
  exists s'. split; [done|].
  assert (found s' = found s ++ indexed (length (found s)) (data r)) as E.
  { eapply (caughtByEnd_after _ _
              (fun s' => results s' = results (accepted f r s1))) in Hs'.
    - rewrite accepted_results in Hs'. unfold results, s1 in Hs'.
      simpl in Hs'. congruence.
    - by apply updateList_loaded.
    - intros e s2 <-. apply end_results. }
  split; [exact E|]. split; [|split].
  - intros i it Hi. rewrite E. apply lookup_app_l_Some, Hi.
  - intros i it. apply indexed_index.
  - rewrite E. by apply dense_append.
Qed.

Lemma index_dense_and_stable_witness :
  (truthy (cfg_data search_config) = false
   ∨ ∀ items ts, dense (sample_fuzzy items ts))
  ∧ reachable sample_fuzzy 2 search_config page_one_shown
  ∧ second_fetch ∈ pending page_one_shown
  ∧ f_terms second_fetch = tid (terms page_one_shown)
  ∧ length (found page_one_shown) = 5%nat
  ∧ dense (found page_one_shown)
  ∧ ∃ s',
      handle sample_fuzzy 2 (SearchResolved second_fetch page_two)
        page_one_shown = Some s'
      ∧ found s' = found page_one_shown ++ indexed 5 (data page_two)
      ∧ label <$> found s' = ["a"; "b"; "c"; "d"; "e"; "f"; "g"]
      ∧ index <$> found s'
        = [Some 0; Some 1; Some 2; Some 3; Some 4; Some 5; Some 6]
      ∧ dense (found s').
Proof.
  assert (truthy (cfg_data search_config) = false
          ∨ ∀ items ts, dense (sample_fuzzy items ts)) as H
    by (left; vm_compute; reflexivity).
  assert (reachable sample_fuzzy 2 search_config page_one_shown) as Hr.
  { apply session_reachable
      with (evs := [(10, SearchResolved first_fetch page_one)]).
    vm_compute. reflexivity. }
  assert (second_fetch ∈ pending page_one_shown) as Hf
    by (vm_compute; apply list_elem_of_here).
  assert (f_terms second_fetch = tid (terms page_one_shown)) as Ht
    by (vm_compute; reflexivity).
  split; [exact H|]. split; [exact Hr|]. split; [exact Hf|].
  split; [exact Ht|]. split; [vm_compute; reflexivity|].
  destruct (index_dense_and_stable sample_fuzzy 1 search_config
              page_one_shown H Hr) as [Hd Hstep].
  split; [exact Hd|].
  destruct (Hstep second_fetch page_two Hf Ht) as (s' & E & Hfound & _ & _ & Hd').
  exists s'. split; [exact E|]. split; [exact Hfound|].
  split; [rewrite Hfound; vm_compute; reflexivity|].
  split; [rewrite Hfound; vm_compute; reflexivity|]. exact Hd'.
Defined.

(** ** Debouncing *)

Section Debounce.

Variable fuzzy : list item → list string → list item.

Lemma filterDataset_keeps fuel s :
  after (filterDataset fuzzy fuel s)
    (fun s' => timer s' = timer s ∧ fired s' = fired s ∧ terms s' = terms s
               ∧ cfg s' = cfg s ∧ listening s' = listening s
               ∧ settled s' = settled s ∧ uncaught s' = uncaught s).
Proof.
  assert (∀ s0 s' : state, frame s0 = frame s' →
            timer s0 = timer s → fired s0 = fired s → terms s0 = terms s →
            cfg s0 = cfg s → listening s0 = listening s →
            settled s0 = settled s → uncaught s0 = uncaught s →
            timer s' = timer s ∧ fired s' = fired s ∧ terms s' = terms s
            ∧ cfg s' = cfg s ∧ listening s' = listening s
            ∧ settled s' = settled s ∧ uncaught s' = uncaught s) as Hframe.
  { intros s0 s' Hf. unfold frame in Hf. intros. repeat split; congruence. }
  unfold filterDataset. simpl.
  destruct (truthy (cfg_data (cfg s))) eqn:Hd; [destruct (dataset s)|].
  - eapply after_mono; [apply updateList_frame|].
    intros s' Hf. by apply (Hframe _ _ Hf).
  - destruct (truthy (cfg_search (cfg s))); [|done].
    eapply after_mono; [apply loadNextPage_frame|].
    intros s' Hf. by apply (Hframe _ _ Hf).
  - destruct (truthy (cfg_search (cfg s))); [|done].
    eapply after_mono; [apply loadNextPage_frame|].
    intros s' Hf. by apply (Hframe _ _ Hf).
Qed.

Lemma filterDataset_returns fuel s :
  (∀ q e, cachedResults s !! q = Some e → c_loadedPages e ≠ 0%nat) →
  returns (filterDataset fuzzy (S (S fuel)) s).
Proof.
  intros Hc. unfold filterDataset. cbv zeta.
  change (cfg (set_start 0 (set_line 0 s))) with (cfg s).
  change (dataset (set_start 0 (set_line 0 s))) with (dataset s).
  destruct (truthy (cfg_data (cfg s))) eqn:Hd; [destruct (dataset s)|].
  - apply updateList_returns. exact Hc.
  - destruct (truthy (cfg_search (cfg s))); [|exact I].
    apply loadNextPage_returns. exact Hc.
  - destruct (truthy (cfg_search (cfg s))); [|exact I].
    apply loadNextPage_returns. exact Hc.
Qed.

(** A keystroke that arrives before the timer's deadline. *)
Lemma deliver_keystroke fuel t chars position modified s :
  listening s = true → halted s = false →
  (∀ d, timer s = Some d → t < d) →
  deliver fuzzy fuel t (Change chars position modified) s
  = Some (onChangeInput chars position modified (set_clock t s)).
Proof.
  intros Hl Hh Ht. unfold deliver, tick, expire. rewrite Hh.
  destruct (timer s) as [d|] eqn:Hd.
  - specialize (Ht d eq_refl).
    destruct (d <=? t) eqn:Hdt; [apply Z.leb_le in Hdt; lia|].
    simpl. rewrite Hh. simpl.
    change (halted (set_clock t s)) with (halted s). by rewrite Hh, Hl.
  - simpl. rewrite Hh. simpl.
    change (halted (set_clock t s)) with (halted s). by rewrite Hh, Hl.
Qed.

Lemma filterDataset_top fuel s :
  after (filterDataset fuzzy fuel s) (fun s' => line s' = 0 ∧ start s' = 0).
Proof.
  assert (∀ s0 s' : state, frame s0 = frame s' →
            line s0 = 0 → start s0 = 0 → line s' = 0 ∧ start s' = 0)
    as Hframe.
  { intros s0 s' Hf. unfold frame in Hf. intros. split; congruence. }
  unfold filterDataset. cbv zeta.
  change (cfg (set_start 0 (set_line 0 s))) with (cfg s).
  change (dataset (set_start 0 (set_line 0 s))) with (dataset s).
  destruct (truthy (cfg_data (cfg s))) eqn:Hd; [destruct (dataset s)|].
  - eapply after_mono; [apply updateList_frame|].
    intros s' Hf. by apply (Hframe _ _ Hf).
  - destruct (truthy (cfg_search (cfg s))); [|done].
    eapply after_mono; [apply loadNextPage_frame|].
    intros s' Hf. by apply (Hframe _ _ Hf).
  - destruct (truthy (cfg_search (cfg s))); [|done].
    eapply after_mono; [apply loadNextPage_frame|].
    intros s' Hf. by apply (Hframe _ _ Hf).
Qed.

(** What a filter pass leaves.  With a dataset and no [search] it is the
    dataset filtered on the current terms, and the collaborator is not
    called.  With a [search] and no dataset to filter it is either the
    cache entry of the query or an empty result set with page 1 asked
    for, unless a fetch for the terms object is in flight. *)
Lemma filterDataset_outcome fuel s :
  (∀ q e, cachedResults s !! q = Some e → c_loadedPages e ≠ 0%nat) →
  after (filterDataset fuzzy (S (S fuel)) s)
    (fun s' =>
       (truthy (cfg_data (cfg s)) = true →
        truthy (cfg_search (cfg s)) = false →
        ∀ items, dataset s = Some items →
          found s' = filter fuzzy (cfg s) items (tchars (terms s))
          ∧ count s' = Z.of_nat (length (found s'))
          ∧ searches s' = searches s)
       ∧ (truthy (cfg_search (cfg s)) = true →
          truthy (cfg_data (cfg s)) = false ∨ dataset s = None →
          match cachedResults s !! join (terms s) with
          | None =>
              found s' = [] ∧ loadedPages s' = 0%nat
              ∧ searches s'
                = (if bool_decide (tid (terms s) ∈ loadingNextPage s)
                   then [] else [FxSearch (join (terms s)) 1])
                  ++ searches s
          | Some e =>
              results s'
              = (c_found e, c_count e, c_loadedPages e, c_morePages e)
              ∧ ∃ l, searches s' = l ++ searches s
                     ∧ (l = []
                        ∨ l = [FxSearch (join (terms s))
                                 (S (c_loadedPages e))])
          end)).
Proof.
  intros Hc. unfold filterDataset. cbv zeta.
  change (cfg (set_start 0 (set_line 0 s))) with (cfg s).
  change (dataset (set_start 0 (set_line 0 s))) with (dataset s).
  change (terms (set_start 0 (set_line 0 s))) with (terms s).
  set (s0 := set_found [] (set_loadedPages 0 (set_start 0 (set_line 0 s)))).
  assert (after (loadNextPage (S (S fuel)) s0)
            (fun s' =>
               match cachedResults s !! join (terms s) with
               | None =>
                   found s' = [] ∧ loadedPages s' = 0%nat
                   ∧ searches s'
                     = (if bool_decide (tid (terms s) ∈ loadingNextPage s)
                        then [] else [FxSearch (join (terms s)) 1])
                       ++ searches s
               | Some e =>
                   results s'
                   = (c_found e, c_count e, c_loadedPages e, c_morePages e)
                   ∧ ∃ l, searches s' = l ++ searches s
                          ∧ (l = []
                             ∨ l = [FxSearch (join (terms s))
                                      (S (c_loadedPages e))])
               end)) as Hsearch.
  { assert (cacheHit s0 = cachedResults s !! join (terms s)) as Hhit
      by reflexivity.
    destruct (cachedResults s !! join (terms s)) as [e|] eqn:E.
    - apply (loadNextPage_restores fuel s0 e Hhit). by eapply Hc.
    - rewrite loadNextPage_miss by exact Hhit. cbn [after].
      pose proof (request_results s0) as Hr. unfold results in Hr.
      assert (found (request s0) = found s0
              ∧ loadedPages (request s0) = loadedPages s0) as [E1 E2]
        by (split; congruence).
      rewrite E1, E2, request_searches.
      change (terms s0) with (terms s).
      change (loadingNextPage s0) with (loadingNextPage s).
      change (searches s0) with (searches s).
      change (loadedPages s0) with 0%nat. change (found s0) with (@nil item).
      split; [done|]. split; [done|]. by case_bool_decide. }
  destruct (truthy (cfg_data (cfg s))) eqn:Hd;
    [destruct (dataset s) as [items|] eqn:Hds|].
  - destruct (truthy (cfg_search (cfg s))) eqn:Hq.
    + eapply after_mono; [apply updateList_frame|].
      intros s' _. split; [discriminate|].
      intros _ [?|?]; discriminate.
    + rewrite updateList_unfold.
      match goal with
      | |- after (redraw ?x >>> _) _ => set (s1 := x)
      end.
      pose proof (redraw_display_only s1) as Hdisp.
      destruct (redraw s1) as [s2|err s2|]; cbn [andThen after] in *;
        [| |exact I].
      * rewrite (display_only_lastVisible _ _ Hdisp).
        assert (lastVisible s1 = false) as ->
          by (unfold lastVisible; change (cfg s1) with (cfg s);
              by rewrite Hq).
        cbn [after].
        pose proof (display_only_results _ _ Hdisp) as Hres.
        pose proof (display_only_searches _ _ Hdisp) as Hsea.
        split; [|discriminate].
        intros _ _ items' Hi. apply (inj Some) in Hi. subst items'.
        unfold results in Hres.
        assert (found s2 = found s1 ∧ count s2 = count s1) as [-> ->]
          by (split; congruence).
        rewrite Hsea. done.
      * pose proof (display_only_results _ _ Hdisp) as Hres.
        pose proof (display_only_searches _ _ Hdisp) as Hsea.
        split; [|discriminate].
        intros _ _ items' Hi. apply (inj Some) in Hi. subst items'.
        unfold results in Hres.
        assert (found s2 = found s1 ∧ count s2 = count s1) as [-> ->]
          by (split; congruence).
        rewrite Hsea. done.
  - destruct (truthy (cfg_search (cfg s))) eqn:Hq.
    + eapply after_mono; [exact Hsearch|].
      intros s' H. split; [discriminate|]. intros _ _. exact H.
    + cbn [after]. split; discriminate.
  - destruct (truthy (cfg_search (cfg s))) eqn:Hq.
    + eapply after_mono; [exact Hsearch|].
      intros s' H. split; [discriminate|]. intros _ _. exact H.
    + cbn [after]. split; discriminate.
Qed.

Lemma run_burst fuel rest : ∀ s t chars position,
  listening s = true → halted s = false →
  (∀ d, timer s = Some d → t < d) →
  rapid (delay_of s) t rest →
  ∃ s1,
    run fuzzy fuel (typing ((t, chars, position) :: rest)) s = Some s1
    ∧ fired s1 = fired s ∧ listening s1 = true ∧ halted s1 = false
    ∧ cfg s1 = cfg s ∧ cachedResults s1 = cachedResults s
    ∧ terms s1 = (lastKey (t, chars, position) rest).1.2
    ∧ timer s1
      = Some ((lastKey (t, chars, position) rest).1.1 + delay_of s)
    ∧ results s1 = results s ∧ searches s1 = searches s
    ∧ dataset s1 = dataset s ∧ loadingNextPage s1 = loadingNextPage s.
Proof.
  induction rest as [|[[t' chars'] position'] rest IH];
    intros s t chars position Hl Hh Ht Hrapid.
  - exists (onChangeInput chars position true (set_clock t s)).
    cbn [typing map run]. rewrite deliver_keystroke by done.
    repeat split; done.
  - destruct Hrapid as [Hnext Hrapid].
    cbn [typing map run]. rewrite deliver_keystroke by done. simpl.
    set (s0 := onChangeInput chars position true (set_clock t s)).
    destruct (IH s0 t' chars' position')
      as (s1 & Hrun & H1 & H2 & H3 & H4 & H5 & H6 & H7 & H8 & H9 & H10 & H11);
      try done.
    + intros d [= <-]. unfold delay_of in Hnext. simpl. lia.
    + exists s1. split; [exact Hrun|]. cbn [lastKey].
      assert (fired s0 = fired s ∧ cfg s0 = cfg s
              ∧ cachedResults s0 = cachedResults s) as (E1 & E2 & E3) by done.
      unfold delay_of in *.
      rewrite H1, H4, H5, H6, H7, H8, H9, H10, H11, E1, E2, E3.
      repeat split; done.
Qed.

End Debounce.

(** C7.  In every state of a session with the listeners attached:
    (1) a change event writes the input line in the handler itself, before
    anything else and without running the filter;
    (2) it replaces [terms] and (re)starts the debounce timer exactly when
    its [modified] flag is set, and otherwise leaves both alone;
    (3) a burst of modifying keystrokes, each less than the debounce delay
    after the one before, runs the filter not at all while it lasts (the
    result set is as before and the collaborator has not been called) and
    exactly once afterwards: when the delay has passed since the last
    keystroke, and on the characters of that keystroke.  That one pass
    puts the selection on row 0 of a window starting at row 0; from a
    dataset (and no [search]) it leaves the dataset filtered on the last
    keystroke's characters; with a [search] and no dataset to filter it
    leaves the cache entry of the last keystroke's query where there is
    one, and an empty result set otherwise, and it calls the collaborator
    at most once, for that query only. *)
Theorem keystrokes_debounced fuzzy fuel c s :
  reachable fuzzy (S (S fuel)) c s →
  listening s = true → halted s = false →
  (∀ chars position modified,
     ∃ text s',
       handle fuzzy (S (S fuel)) (Change chars position modified) s = Some s'
       ∧ effects s' = FxInput text :: effects s
       ∧ fired s' = fired s ∧ results s' = results s
       ∧ (modified = false → terms s' = terms s ∧ timer s' = timer s)
       ∧ (modified = true →
            terms s' = chars ∧ timer s' = Some (clock s + delay_of s)))
  ∧ (∀ t chars position rest T tn cn pn,
       (∀ d, timer s = Some d → t < d) →
       rapid (delay_of s) t rest →
       lastKey (t, chars, position) rest = (tn, cn, pn) →
       tn + delay_of s ≤ T →
       ∃ s1 s2,
         run fuzzy (S (S fuel)) (typing ((t, chars, position) :: rest)) s
         = Some s1
         ∧ fired s1 = fired s
         ∧ results s1 = results s ∧ searches s1 = searches s
         ∧ tick fuzzy (S (S fuel)) T s1 = Some s2
         ∧ fired s2 = (tn + delay_of s, cn) :: fired s
         ∧ timer s2 = None
         ∧ terms s2 = cn ∧ line s2 = 0 ∧ start s2 = 0
         ∧ (truthy (cfg_data (cfg s)) = true →
            truthy (cfg_search (cfg s)) = false →
            ∀ items, dataset s = Some items →
              found s2 = filter fuzzy (cfg s) items (tchars cn)
              ∧ count s2 = Z.of_nat (length (found s2))
              ∧ searches s2 = searches s)
         ∧ (truthy (cfg_search (cfg s)) = true →
            truthy (cfg_data (cfg s)) = false ∨ dataset s = None →
            match cachedResults s !! join cn with
            | None =>
                found s2 = [] ∧ loadedPages s2 = 0%nat
                ∧ searches s2
                  = (if bool_decide (tid cn ∈ loadingNextPage s)
                     then [] else [FxSearch (join cn) 1])
                    ++ searches s
            | Some e =>
                results s2
                = (c_found e, c_count e, c_loadedPages e, c_morePages e)
                ∧ ∃ l, searches s2 = l ++ searches s
                       ∧ (l = []
                          ∨ l = [FxSearch (join cn) (S (c_loadedPages e))])
            end)).
Proof.
  intros Hinv%reachable_inv Hl Hh. split.
  - intros chars position modified. simpl. rewrite Hl.
    unfold onChangeInput. cbv zeta.
    destruct modified; eexists _, _; (split; [reflexivity|]);
      repeat split; try done; discriminate.
  - intros t chars position rest T tn cn pn Ht Hrapid Hlast HT.
    destruct (run_burst fuzzy (S (S fuel)) rest s t chars position Hl Hh Ht Hrapid)
      as (s1 & Hrun & H1 & H2 & H3 & H4 & H5 & H6 & H7 & H8 & H9 & H10 & H11).
    rewrite Hlast in H6, H7. cbn [fst snd] in H6, H7.
    exists s1.
    set (s0 := set_fired ((tn + delay_of s, terms s1) :: fired s1)
                 (set_timer None (set_clock (tn + delay_of s) s1))).
    assert (∀ q e, cachedResults s0 !! q = Some e → c_loadedPages e ≠ 0%nat)
      as Hcache.
    { change (cachedResults s0) with (cachedResults s1). rewrite H5.
      apply (inv_cache _ Hinv). }
    pose proof (filterDataset_returns fuzzy fuel s0 Hcache) as Hret.
    pose proof (filterDataset_keeps fuzzy (S (S fuel)) s0) as Hkeep.
    pose proof (filterDataset_top fuzzy (S (S fuel)) s0) as Htop.
    pose proof (filterDataset_outcome fuzzy fuel s0 Hcache) as Hout.
    change (cfg s0) with (cfg s1) in Hout.
    change (dataset s0) with (dataset s1) in Hout.
    change (terms s0) with (terms s1) in Hout.
    change (cachedResults s0) with (cachedResults s1) in Hout.
    change (loadingNextPage s0) with (loadingNextPage s1) in Hout.
    change (searches s0) with (searches s1) in Hout.
    rewrite H4, H5, H6, H9, H10, H11 in Hout.
    assert (tick fuzzy (S (S fuel)) T s1
            = s2 ← uncaughtIn (filterDataset fuzzy (S (S fuel)) s0);
              Some (if halted s2 then s2 else set_clock T s2)) as Htick.
    { unfold tick, expire. rewrite H3, H7.
      destruct (tn + delay_of s <=? T) eqn:E; [done|].
      apply Z.leb_gt in E. lia. }
    rewrite Htick.
    assert (∀ s2 : state,
              timer s2 = timer s0 → fired s2 = fired s0 →
              terms s2 = terms s0 → line s2 = 0 → start s2 = 0 →
              fired s2 = (tn + delay_of s, cn) :: fired s
              ∧ timer s2 = None ∧ terms s2 = cn ∧ line s2 = 0 ∧ start s2 = 0)
      as Hfields.
    { intros s2 K1 K2 K3 K4 K5. rewrite K1, K2, K3. simpl.
      rewrite H1, H6. done. }
    destruct (filterDataset fuzzy (S (S fuel)) s0) as [s2|e s2|];
      cbn [uncaughtIn mbind option_bind after] in *.
    + destruct Hkeep as (K1 & K2 & K3 & _). destruct Htop as [K4 K5].
      destruct (Hfields s2 K1 K2 K3 K4 K5) as (F1 & F2 & F3 & F4 & F5).
      destruct Hout as [Hdata Hsearch].
      eexists. split; [exact Hrun|]. split; [exact H1|].
      split; [exact H8|]. split; [exact H9|].
      split; [reflexivity|].
      destruct (halted s2);
        (split; [exact F1|]); (split; [exact F2|]); (split; [exact F3|]);
        (split; [exact F4|]); (split; [exact F5|]);
        (split; [exact Hdata|exact Hsearch]).
    + destruct Hkeep as (K1 & K2 & K3 & _). destruct Htop as [K4 K5].
      destruct (Hfields s2 K1 K2 K3 K4 K5) as (F1 & F2 & F3 & F4 & F5).
      destruct Hout as [Hdata Hsearch].
      eexists. split; [exact Hrun|]. split; [exact H1|].
      split; [exact H8|]. split; [exact H9|].
      split; [reflexivity|].
      destruct (halted (set_uncaught (Some e) s2));
        (split; [exact F1|]); (split; [exact F2|]); (split; [exact F3|]);
        (split; [exact F4|]); (split; [exact F5|]);
        (split; [exact Hdata|exact Hsearch]).
    + exfalso. exact Hret.
Qed.

Lemma keystrokes_debounced_witness :
  (reachable sample_fuzzy 2 search_config search_started
   ∧ listening search_started = true ∧ halted search_started = false
   ∧ ∃ s1 s2,
       run sample_fuzzy 2
         (typing [(10, mkTerms 1 ["x"], 1); (100, mkTerms 2 ["x"; "y"], 2)])
         search_started = Some s1
       ∧ searches s1 = [FxSearch "" 1]
       ∧ tick sample_fuzzy 2 400 s1 = Some s2
       ∧ fired s2 = [(400, mkTerms 2 ["x"; "y"])]
       ∧ terms s2 = mkTerms 2 ["x"; "y"]
       ∧ found s2 = []
       ∧ searches s2 = [FxSearch "xy" 1; FxSearch "" 1])
  ∧ (reachable sample_fuzzy 2 data_config data_loaded
     ∧ listening data_loaded = true ∧ halted data_loaded = false
     ∧ ∃ s1 s2,
         run sample_fuzzy 2
           (typing [(10, mkTerms 1 ["a"], 1); (100, mkTerms 2 ["a"; "n"], 2)])
           data_loaded = Some s1
         ∧ results s1 = results data_loaded
         ∧ tick sample_fuzzy 2 400 s1 = Some s2
         ∧ fired s2 = [(400, mkTerms 2 ["a"; "n"])]
         ∧ label <$> found s2 = ["apple"; "banana"]
         ∧ count s2 = 2
         ∧ searches s2 = []).
Proof.
  split.
  - assert (reachable sample_fuzzy 2 search_config search_started) as Hr
      by (apply reach_create; vm_compute; reflexivity).
    assert (listening search_started = true) as Hl
      by (vm_compute; reflexivity).
    assert (halted search_started = false) as Hh by (vm_compute; reflexivity).
    split; [exact Hr|]. split; [exact Hl|]. split; [exact Hh|].
    destruct (proj2 (keystrokes_debounced sample_fuzzy 0 search_config
                       search_started Hr Hl Hh)
                10 (mkTerms 1 ["x"]) 1 [(100, mkTerms 2 ["x"; "y"], 2)] 400
                100 (mkTerms 2 ["x"; "y"]) 2)
      as (s1 & s2 & Hrun & _ & _ & Hs1 & Htick & Hfired & _ & Hterms & _ & _
          & _ & Hsearch).
    + vm_compute. discriminate.
    + vm_compute. repeat split; discriminate.
    + reflexivity.
    + vm_compute. discriminate.
    + exists s1, s2. split; [exact Hrun|].
      split; [rewrite Hs1; vm_compute; reflexivity|].
      split; [exact Htick|].
      split; [rewrite Hfired; vm_compute; reflexivity|].
      split; [exact Hterms|].
      assert (cachedResults search_started !! join (mkTerms 2 ["x"; "y"])
              = None) as Hmiss by (vm_compute; reflexivity).
      assert (tid (mkTerms 2 ["x"; "y"]) ∉ loadingNextPage search_started)
        as Hfree by (intros H; vm_compute in H; discriminate).
      rewrite Hmiss in Hsearch.
      rewrite (bool_decide_eq_false_2 _ Hfree) in Hsearch.
      destruct Hsearch as (Hfound & _ & Hsearches).
      * vm_compute. reflexivity.
      * left. vm_compute. reflexivity.
      * split; [exact Hfound|]. rewrite Hsearches. vm_compute. reflexivity.
  - assert (reachable sample_fuzzy 2 data_config data_loaded) as Hr.
    { apply session_reachable with (evs := [(5, DataResolved (Some fruits))]).
      vm_compute. reflexivity. }
    assert (listening data_loaded = true) as Hl by (vm_compute; reflexivity).
    assert (halted data_loaded = false) as Hh by (vm_compute; reflexivity).
    split; [exact Hr|]. split; [exact Hl|]. split; [exact Hh|].
    destruct (proj2 (keystrokes_debounced sample_fuzzy 0 data_config
                       data_loaded Hr Hl Hh)
                10 (mkTerms 1 ["a"]) 1 [(100, mkTerms 2 ["a"; "n"], 2)] 400
                100 (mkTerms 2 ["a"; "n"]) 2)
      as (s1 & s2 & Hrun & _ & Hres & _ & Htick & Hfired & _ & _ & _ & _
          & Hdata & _).
    + vm_compute. discriminate.
    + vm_compute. repeat split; discriminate.
    + reflexivity.
    + vm_compute. discriminate.
    + exists s1, s2. split; [exact Hrun|]. split; [exact Hres|].
      split; [exact Htick|].
      split; [rewrite Hfired; vm_compute; reflexivity|].
      destruct (Hdata eq_refl eq_refl
                  [entry "apple"; entry "banana"])
        as (Hfound & Hcount & Hsearches).
      * vm_compute. reflexivity.
      * split; [rewrite Hfound; vm_compute; reflexivity|].
        split; [rewrite Hcount, Hfound; vm_compute; reflexivity|].
        rewrite Hsearches. vm_compute. reflexivity.
Defined.

(** ** Loading the next page from a redraw *)

(** C8.  In search mode, when [updateList] has redrawn the list: if the
    window reaches the end of the loaded results
    ([start + size >= found.length]) and [morePages] is set, it goes on to
    call [loadNextPage], on the state just drawn, and where neither the
    cache nor a fetch in flight stands in the way that call asks the
    collaborator for the next page; if one of the two conditions fails,
    [updateList] is over after the redraw: no call of the collaborator, no
    new pending fetch. *)
Theorem redraw_loads_next_page fuel s s1 :
  truthy (cfg_search (cfg s)) = true →
  redraw s = Done s1 →
  (Z.of_nat (length (found s)) ≤ start s + cfg_size (cfg s)
   ∧ morePages s = true →
     updateList fuel s = loadNextPage fuel s1
     ∧ results s1 = results s
     ∧ (cacheHit s = None → tid (terms s) ∉ loadingNextPage s →
        ∃ s', updateList (S fuel) s = Done s'
              ∧ searches s'
                = FxSearch (join (terms s)) (S (loadedPages s)) :: searches s))
  ∧ (¬ (Z.of_nat (length (found s)) ≤ start s + cfg_size (cfg s)
        ∧ morePages s = true) →
     updateList fuel s = Done s1
     ∧ searches s1 = searches s ∧ pending s1 = pending s).
Proof.
  intros Hsearch Hdraw.
  pose proof (redraw_display_only s) as Hd. rewrite Hdraw in Hd.
  cbn [after] in Hd.
  pose proof (display_only_lastVisible _ _ Hd) as Hlv.
  pose proof (display_only_results _ _ Hd) as Hres.
  pose proof (display_only_searches _ _ Hd) as Hsea.
  assert (lastVisible s
          = bool_decide (Z.of_nat (length (found s)) ≤ start s + cfg_size (cfg s)
                         ∧ morePages s = true)) as Hcond.
  { unfold lastVisible. rewrite Hsearch. simpl.
    destruct (morePages s); case_bool_decide as H;
      destruct (Z.leb_spec (Z.of_nat (length (found s)))
                  (start s + cfg_size (cfg s))); simpl; try done;
      try (exfalso; apply H; split; [lia|done]);
      destruct H; try lia; done. }
  split.
  - intros Hyes. rewrite updateList_unfold, Hdraw. cbn [andThen].
    rewrite Hlv, Hcond, bool_decide_eq_true_2 by done.
    split; [done|]. split; [done|].
    intros Hmiss Hfree. rewrite updateList_unfold, Hdraw. cbn [andThen].
    rewrite Hlv, Hcond, bool_decide_eq_true_2 by done.
    destruct Hd as [Hcore _].
    field_of Hcore terms. field_of Hcore loadingNextPage.
    field_of Hcore cachedResults. field_of Hcore loadedPages.
    rewrite loadNextPage_miss.
    + eexists. split; [reflexivity|].
      rewrite request_searches, E, E0, E2, Hsea.
      by rewrite bool_decide_eq_false_2.
    + unfold cacheHit in *. by rewrite E, E1, E2.
  - intros Hno. rewrite updateList_unfold, Hdraw. cbn [andThen].
    rewrite Hlv, Hcond, bool_decide_eq_false_2 by done.
    split; [done|]. split; [done|].
    destruct Hd as [Hcore _]. by field_of Hcore pending.
Qed.

Lemma redraw_loads_next_page_witness :
  truthy (cfg_search (cfg page_one_accepted)) = true
  ∧ redraw page_one_accepted = Done page_one_drawn
  ∧ updateList 2 page_one_accepted = loadNextPage 2 page_one_drawn.
Proof.
  assert (truthy (cfg_search (cfg page_one_accepted)) = true) as Hs
    by (vm_compute; reflexivity).
  assert (redraw page_one_accepted = Done page_one_drawn) as Hd
    by (vm_compute; reflexivity).
  split; [exact Hs|]. split; [exact Hd|].
  apply (proj1 (redraw_loads_next_page 2 page_one_accepted page_one_drawn
                  Hs Hd)).
  vm_compute. split; [discriminate|reflexivity].
Defined.

(** ** Checking the options *)

(** C9, as the claim states it, fails in both directions, because the
    executor tests its options for truthiness: a [search] that is given but
    falsy (here the number 0) is not checked for being a function, and
    construction goes through when [data] is there; a [data] that is given
    but falsy (here the number 0) counts as missing. *)
Lemma falsy_options_not_as_claimed :
  (supplied (cfg_search search_zero_config) = true
   ∧ typeof (cfg_search search_zero_config) ≠ "function"
   ∧ (s ← create 2 search_zero_config;
      Some (settled s, listening s, stdinHooked s))
     = Some (None, true, true))
  ∧ (supplied (cfg_data data_zero_config) = true
     ∧ supplied (cfg_search data_zero_config) = false
     ∧ (s ← create 2 data_zero_config; Some (settled s))
       = Some (Some (Rejected ErrRequired))).
Proof. vm_compute. repeat split; discriminate. Qed.

(** C9, amended.  The promise is rejected with a configuration error,
    before stdin is touched and before any listener is attached, exactly
    when [data] and [search] are both falsy, or [search] is truthy and not a
    function.  For every other configuration no configuration error is
    raised, and unless [size] is negative the session starts: stdin is set
    up, the listeners are attached, the promise is pending. *)
Theorem construction_checks_options fuel c :
  let rejected :=
    negb (truthy (cfg_data c)) && negb (truthy (cfg_search c))
    || truthy (cfg_search c)
       && negb (String.eqb (typeof (cfg_search c)) "function") in
  (rejected = true →
     ∃ e s, create fuel c = Some s
            ∧ is_config_error e = true
            ∧ settled s = Some (Rejected e)
            ∧ effects s = [FxReject e]
            ∧ stdinHooked s = false ∧ listening s = false)
  ∧ (rejected = false →
     (∃ s, create (S fuel) c = Some s)
     ∧ ∀ s, create fuel c = Some s →
         (∀ e, settled s = Some (Rejected e) → is_config_error e = false)
         ∧ (0 ≤ cfg_size c →
            settled s = None ∧ stdinHooked s = true ∧ listening s = true)).
Proof.
  cbv zeta. unfold create.
  destruct (negb (truthy (cfg_data c)) && negb (truthy (cfg_search c)))
    eqn:Hmissing; cbn [orb].
  { split; [|done]. intros _.
    by exists ErrRequired, (reject ErrRequired (initial c)). }
  destruct (truthy (cfg_search c)
            && negb (String.eqb (typeof (cfg_search c)) "function"))
    eqn:Hfn.
  { split; [|done]. intros _.
    by exists (ErrSearchType (typeof (cfg_search c))),
              (reject (ErrSearchType (typeof (cfg_search c))) (initial c)). }
  split; [done|]. intros _.
  destruct (cfg_size c <? 0) eqn:Hsize.
  { split; [by eexists|]. intros s. from_some.
    split; [by intros e [= <-]|]. apply Z.ltb_lt in Hsize. lia. }
  destruct (truthy (cfg_data c)) eqn:Hdata.
  { split; [by eexists|]. intros s. from_some. split; done. }
  match goal with
  | |- context [loadNextPage fuel ?x] => set (s0 := x)
  end.
  split.
  - rewrite loadNextPage_miss; [by eexists|]. unfold cacheHit.
    apply lookup_empty.
  - intros s Hs.
    pose proof (loadNextPage_frame fuel s0) as Hf.
    destruct (loadNextPage fuel s0) as [s'|e s'|]; cbn [after uncaughtIn] in *;
      [| |done]; apply (inj Some) in Hs; subst s; unfold frame, s0 in Hf;
      simpl in Hf;
      (assert (settled s' = None ∧ stdinHooked s' = true ∧ listening s' = true)
        as (E1 & E2 & E3) by (repeat split; congruence)).
    + rewrite E1, E2, E3. split; done.
    + change (settled (set_uncaught (Some e) s')) with (settled s').
      change (stdinHooked (set_uncaught (Some e) s')) with (stdinHooked s').
      change (listening (set_uncaught (Some e) s')) with (listening s').
      rewrite E1, E2, E3. split; done.
Qed.

(** ** Selecting from an empty list *)

(** C10.  In every state of a session with the listeners attached and
    [found] empty, select does what cancel does: the listeners are
    detached and the promise is resolved with [undefined]; nothing is
    thrown and nothing is rejected. *)
Theorem select_on_empty_resolves_undefined fuzzy fuel c s :
  reachable fuzzy fuel c s →
  listening s = true → found s = [] →
  ∃ s', handle fuzzy fuel Select s = Some s'
        ∧ handle fuzzy fuel Cancel s = Some s'
        ∧ settled s' = Some (Resolved None)
        ∧ effects s' = FxResolve None :: FxUnlisten :: effects s
        ∧ listening s' = false ∧ uncaught s' = uncaught s.
Proof.
  intros Hinv%reachable_inv Hl Hf.
  pose proof (inv_listening _ Hinv Hl) as Hs.
  exists (onEnd s). simpl. rewrite Hl.
  assert (onSelect s = onEnd s) as ->.
  { unfold onSelect, onEnd, js_nth. rewrite Hf.
    destruct (line s <? 0); [done|]. by rewrite lookup_nil. }
  split; [done|]. split; [done|].
  unfold onEnd, end_, resolve. simpl. rewrite Hs. simpl. done.
Qed.

Lemma select_on_empty_resolves_undefined_witness :
  reachable sample_fuzzy 2 search_config search_started
  ∧ listening search_started = true ∧ found search_started = []
  ∧ ∃ s', handle sample_fuzzy 2 Select search_started = Some s'
          ∧ settled s' = Some (Resolved None).
Proof.
  assert (reachable sample_fuzzy 2 search_config search_started) as Hr
    by (apply reach_create; vm_compute; reflexivity).
  assert (listening search_started = true) as Hl by (vm_compute; reflexivity).
  assert (found search_started = []) as Hf by (vm_compute; reflexivity).
  split; [exact Hr|]. split; [exact Hl|]. split; [exact Hf|].
  destruct (select_on_empty_resolves_undefined sample_fuzzy 2 search_config
              search_started Hr Hl Hf) as (s' & H1 & _ & H2 & _).
  exists s'. by split.
Defined.

(** * Sessions as sequences of assignments *)

Lemma onChangeLine_unfold dline dpage fuel s :
  onChangeLine dline dpage fuel s = updateList fuel (moved dline dpage s).
Proof. reflexivity. Qed.

Section Steps.

Variable fuzzy : list item → list string → list item.

Local Abbreviation steps := (rtc (prim fuzzy)).

Lemma prim_cfg s s' : prim fuzzy s s' → cfg s' = cfg s.
Proof.
  intros Hp. destruct Hp; try done.
  - destruct H as [H _]. by field_of H cfg.
  - unfold request. by case_bool_decide.
  - unfold accepted. by destruct (cfg_cache (cfg s)).
  - unfold moved. by repeat case_match.
  - unfold onChangeInput. by destruct modified.
  - unfold end_, reject, resolve. simpl.
    by destruct err as [reason|]; [destruct (error_truthy reason)|]; destruct (settled s).
Qed.

Lemma steps_cfg s s' : steps s s' → cfg s' = cfg s.
Proof.
  induction 1 as [|s1 s2 s3 H _ IH]; [done|].
  by rewrite IH, (prim_cfg _ _ H).
Qed.

(** [loadNextPage] is only ever called where [search] is truthy. *)
Lemma loadNextPage_steps fuel s :
  truthy (cfg_search (cfg s)) = true → after (loadNextPage fuel s) (steps s).
Proof.
  intros Hq.
  eapply after_mono;
    [apply loadNextPage_relates
       with (R := fun s s' => truthy (cfg_search (cfg s)) = true → steps s s')|];
    auto.
  - intros s1 s2 s3 H12 H23 H1. specialize (H12 H1).
    eapply rtc_trans; [exact H12|]. apply H23.
    by rewrite (steps_cfg _ _ H12).
  - intros s1 s2 H _. by apply rtc_once, prim_display.
  - intros s1 e H H1. by apply rtc_once, prim_restore.
  - intros s1 H H1. by apply rtc_once, prim_request.
Qed.

Lemma updateList_steps fuel s : after (updateList fuel s) (steps s).
Proof.
  rewrite updateList_unfold.
  eapply after_bind; [apply redraw_display_only | |].
  - intros s1 H1. by apply rtc_once, prim_display.
  - intros s1 H1. destruct (lastVisible s1) eqn:Hlv; cbn [after].
    + eapply after_mono; [apply loadNextPage_steps|].
      * unfold lastVisible in Hlv.
        by destruct (truthy (cfg_search (cfg s1))).
      * intros s2 H2. eapply rtc_l; [|exact H2]. by apply prim_display.
    + by apply rtc_once, prim_display.
Qed.

Lemma after_steps r s0 s :
  steps s0 s → after r (steps s) → after r (steps s0).
Proof.
  intros H Hr. eapply after_mono; [exact Hr|].
  intros s'. by apply rtc_trans.
Qed.

Lemma filterDataset_steps fuel s : after (filterDataset fuzzy fuel s) (steps s).
Proof.
  unfold filterDataset. cbv zeta.
  change (cfg (set_start 0 (set_line 0 s))) with (cfg s).
  change (dataset (set_start 0 (set_line 0 s))) with (dataset s).
  destruct (truthy (cfg_data (cfg s))) eqn:Hd;
    [destruct (dataset s) as [items|] eqn:Hs|].
  - eapply after_steps; [|apply updateList_steps].
    apply rtc_once. by apply (prim_filter_data fuzzy s items).
  - destruct (truthy (cfg_search (cfg s))) eqn:Hq.
    + eapply after_steps; [|apply loadNextPage_steps; exact Hq].
      apply rtc_once. apply prim_filter_search; auto.
    + apply rtc_once. apply prim_filter_none; auto.
  - destruct (truthy (cfg_search (cfg s))) eqn:Hq.
    + eapply after_steps; [|apply loadNextPage_steps; exact Hq].
      apply rtc_once. apply prim_filter_search; auto.
    + apply rtc_once. apply prim_filter_none; auto.
Qed.

Lemma loadNextPage_then_steps f r fuel s :
  f_terms f ∈ loadingNextPage s →
  f_page f ≠ 0%nat → (∀ g, g ∈ pending s → f_terms g ≠ f_terms f) →
  after (loadNextPage_then f r fuel s) (steps s).
Proof.
  intros Hm Hp Hg. destruct (decide (f_terms f = tid (terms s))) as [Hc|Hc].
  - rewrite loadNextPage_then_current by done.
    eapply after_steps; [|apply updateList_steps].
    by apply rtc_once, prim_accept.
  - rewrite loadNextPage_then_stale by done.
    by apply rtc_once, prim_unmark.
Qed.

Lemma uncaughtIn_steps r s s' :
  after r (steps s) → uncaughtIn r = Some s' → steps s s'.
Proof.
  destruct r as [s1|e s1|]; cbn [after uncaughtIn]; intros H Heq;
    [congruence| |done].
  assert (s' = set_uncaught (Some e) s1) as -> by congruence.
  eapply rtc_r; [exact H|]. apply prim_uncaught.
Qed.

Lemma caughtByEnd_steps r s s' :
  after r (steps s) → caughtByEnd r = Some s' → steps s s'.
Proof.
  destruct r as [s1|e s1|]; cbn [after caughtByEnd]; intros H Heq;
    [congruence| |done].
  assert (s' = end_ (Some e) None s1) as -> by congruence.
  eapply rtc_r; [exact H|]. apply prim_end.
Qed.

Lemma handle_steps fuel ev s s' :
  session_inv s → handle fuzzy fuel ev s = Some s' → steps s s'.
Proof.
  intros Hinv. destruct ev; simpl.
  - destruct (listening s) eqn:Hl; from_some; [|done].
    by apply rtc_once, prim_input.
  - destruct (listening s) eqn:Hl; [|by from_some].
    rewrite onChangeLine_unfold. apply uncaughtIn_steps.
    eapply after_steps; [|apply updateList_steps].
    by apply rtc_once, prim_move.
  - destruct (listening s); from_some; [|done]. apply rtc_once, prim_end.
  - destruct (listening s); from_some; [|done]. apply rtc_once, prim_end.
  - destruct (stdinHooked s); from_some; [|done]. apply rtc_once, prim_end.
  - destruct (dataPending s) eqn:Hp; [|by from_some].
    destruct (checkDataset items) as [e|ds].
    + from_some. eapply rtc_l; [|apply rtc_once, prim_end].
      replace (set_dataPending false s)
        with (set_dataset (dataset s) (set_dataPending false s))
        by by destruct s.
      by apply prim_dataset.
    + apply caughtByEnd_steps.
      eapply after_steps; [|apply filterDataset_steps].
      by apply rtc_once, prim_dataset.
  - destruct (dataPending s) eqn:Hp; from_some; [|done].
    eapply rtc_l; [|apply rtc_once, prim_end].
    replace (set_dataPending false s)
      with (set_dataset (dataset s) (set_dataPending false s))
      by by destruct s.
    by apply prim_dataset.
  - case_bool_decide as Hf; [|by from_some].
    destruct (settle_inv f s Hinv Hf) as (H1 & H2 & H3).
    pose proof (inv_marked _ Hinv f Hf) as Hm.
    apply caughtByEnd_steps.
    eapply after_steps; [|by apply loadNextPage_then_steps].
    by apply rtc_once, prim_settle.
  - case_bool_decide as Hf; from_some; [|done].
    eapply rtc_l; [by apply prim_settle|]. apply rtc_once, prim_end.
Qed.

Lemma tick_steps fuel t s s' : tick fuzzy fuel t s = Some s' → steps s s'.
Proof.
  unfold tick, expire. destruct (halted s); [by from_some|].
  destruct (timer s) as [d|] eqn:Ht; [destruct (d <=? t)|]; simpl.
  - destruct (uncaughtIn _) as [s1|] eqn:E; simpl; [|done].
    from_some. apply uncaughtIn_steps with (s := s) in E.
    + destruct (halted s1); [done|].
      eapply rtc_r; [exact E|]. apply prim_clock.
    + eapply after_steps; [|apply filterDataset_steps].
      by apply rtc_once, prim_fire.
  - from_some. destruct (halted s); [done|]. apply rtc_once, prim_clock.
  - from_some. destruct (halted s); [done|]. apply rtc_once, prim_clock.
Qed.

Lemma deliver_steps fuel t ev s s' :
  session_inv s → deliver fuzzy fuel t ev s = Some s' → steps s s'.
Proof.
  intros Hinv. unfold deliver.
  destruct (tick fuzzy fuel t s) as [s1|] eqn:E; simpl; [|done].
  pose proof (tick_inv _ _ _ _ _ Hinv E) as Hinv1.
  apply tick_steps in E.
  destruct (halted s1); [by from_some|].
  intros H. eapply rtc_trans; [exact E|]. by eapply handle_steps.
Qed.

Lemma create_steps fuel c s :
  create fuel c = Some s → ∃ s0, boot c s0 ∧ steps s0 s.
Proof.
  unfold create.
  repeat (case_match; [from_some; eexists; split; [apply boot_rejected|done]|]).
  assert (0 ≤ cfg_size c) as Hsize by (apply Z.ltb_ge; assumption).
  case_match.
  - from_some. exists (booted c). split; [by apply boot_ready|].
    unfold booted. by case_match.
  - intros E. exists (booted c). split; [by apply boot_ready|].
    apply uncaughtIn_steps with (s := booted c) in E; [done|].
    unfold booted. case_match; [congruence|]. apply loadNextPage_steps.
    simpl. by destruct (truthy (cfg_search c)).
Qed.

(** What a block of assignments keeps of the session invariant. *)
Lemma prim_inv s s' : prim fuzzy s s' → session_inv s → session_inv s'.
Proof.
  intros Hp Hinv. destruct Hp.
  - by apply session_inv_display with s.
  - by apply session_inv_same with s.
  - by apply session_inv_request.
  - by apply settle_inv.
  - by apply unmark_inv.
  - pose proof (unmark_inv _ _ Hinv H2) as [I1 I2 I3 I4 I5 I6].
    unfold accepted.
    destruct (cfg_cache (cfg s)); (split; simpl; try done).
    intros q e [[<- <-]|[_ Hq]]%lookup_insert_Some; [done|]. by eapply I1.
  - by apply session_inv_same with s.
  - by apply session_inv_same with s.
  - by apply session_inv_same with s.
  - unfold moved. repeat case_match; by apply session_inv_same with s.
  - by apply onChangeInput_inv.
  - by apply end_inv.
  - by apply session_inv_same with s.
  - by apply session_inv_same with s.
  - by apply session_inv_same with s.
  - by apply session_inv_same with s.
Qed.

Lemma boot_inv c s : boot c s → session_inv s.
Proof.
  intros [e|Hsize].
  - unfold reject. split; simpl; try done.
    + intros f Hf. by apply elem_of_nil in Hf.
    + intros f Hf. by apply elem_of_nil in Hf.
    + constructor.
  - unfold booted. case_match; split; simpl; try done;
      try (intros f Hf; by apply elem_of_nil in Hf); constructor.
Qed.

Lemma boot_cfg c s : boot c s → cfg s = c.
Proof.
  intros [e|Hsize].
  - unfold reject. by destruct (settled (initial c)).
  - unfold booted. by case_match.
Qed.

(** Induction over the states of a session: what holds when the executor
    hands over and is kept by every block of assignments, holds in every
    state. *)
Theorem session_induction c (P : state → Prop) :
  (∀ s, boot c s → P s) →
  (∀ s s', session_inv s → cfg s = c → P s → prim fuzzy s s' → P s') →
  ∀ fuel s, reachable fuzzy fuel c s → P s.
Proof.
  intros Hboot Hprim fuel.
  assert (∀ s s', steps s s' → session_inv s ∧ cfg s = c ∧ P s →
                  session_inv s' ∧ cfg s' = c ∧ P s') as Hsteps.
  { induction 1 as [|s1 s2 s3 H12 _ IH]; [done|].
    intros (Hinv & Hc & HP). apply IH. split; [by eapply prim_inv|].
    split; [|by eapply Hprim]. by rewrite (prim_cfg _ _ H12). }
  assert (∀ s, reachable fuzzy fuel c s → session_inv s ∧ cfg s = c ∧ P s)
    as Hall.
  { induction 1 as [s H|s t s' _ IH H|s t ev s' _ IH H].
    - apply create_steps in H as (s0 & Hb & Hs).
      apply (Hsteps _ _ Hs). split; [by eapply boot_inv|].
      split; [by apply boot_cfg|by apply Hboot].
    - apply tick_steps in H. by apply (Hsteps _ _ H).
    - apply deliver_steps in H; [|by apply IH]. by apply (Hsteps _ _ H). }
  intros s Hr. by apply Hall.
Qed.

End Steps.

(** * Further properties of the code *)

(** ** The selection and the window *)

Lemma moved_selection dline dpage s :
  viewport_ok (cfg_size (cfg s)) s →
  line s ≤ Z.max 0 (Z.of_nat (length (found s)) - 1) →
  viewport_ok (cfg_size (cfg s)) (moved dline dpage s)
  ∧ line (moved dline dpage s) ≤ Z.max 0 (Z.of_nat (length (found s)) - 1)
  ∧ found (moved dline dpage s) = found s
  ∧ loadedPages (moved dline dpage s) = loadedPages s.
Proof.
  intros (H0 & H1 & H2) Hb. unfold moved, viewport_ok. cbv zeta.
  set (size := cfg_size (cfg s)) in *.
  set (nl := Z.max 0 (Z.min (Z.of_nat (length (found s)) - 1)
                            (line s + dline + dpage * size))).
  change (line (set_line nl s)) with nl.
  change (start (set_line nl s)) with (start s).
  destruct (((dline <? 0) || (dpage <? 0)) && (nl <? start s)) eqn:Hup;
    [|destruct (((0 <? dline) || (0 <? dpage)) && (start s + size <=? nl))
        eqn:Hdown]; simpl.
  - unfold nl. repeat split; lia.
  - apply andb_true_iff in Hdown as [_ Hd%Z.leb_le].
    unfold nl in *. repeat split; lia.
  - assert (start s ≤ nl).
    { destruct (Z.lt_ge_cases nl (start s)) as [Hlt|]; [|done].
      exfalso. apply andb_false_iff in Hup as [Hup|Hup%Z.ltb_ge]; [|lia].
      apply orb_false_iff in Hup as [?%Z.ltb_ge ?%Z.ltb_ge].
      unfold nl in Hlt. nia. }
    assert (nl < start s + size).
    { destruct (Z.lt_ge_cases nl (start s + size)) as [|Hge]; [done|].
      exfalso. apply andb_false_iff in Hdown as [Hd|Hd%Z.leb_gt]; [|lia].
      apply orb_false_iff in Hd as [?%Z.ltb_ge ?%Z.ltb_ge].
      unfold nl in Hge. nia. }
    unfold nl in *. repeat split; lia.
Qed.

Lemma selection_inv_same c s s' :
  line s' = line s → start s' = start s → found s' = found s →
  loadedPages s' = loadedPages s →
  selection_inv c s → selection_inv c s'.
Proof.
  intros Hl Hs Hf Hp. unfold selection_inv, viewport_ok.
  by rewrite Hl, Hs, Hf, Hp.
Qed.

Lemma reachable_selection_inv fuzzy fuel c s :
  0 < cfg_size c →
  truthy (cfg_data c) = false ∨ truthy (cfg_search c) = false →
  reachable fuzzy fuel c s → selection_inv c s.
Proof.
  intros Hsize Hone Hr.
  revert fuel s Hr. apply session_induction.
  - intros s [e|_].
    + unfold reject, selection_inv, viewport_ok.
      destruct (settled (initial c)); simpl; repeat split; try lia; by right.
    + unfold booted, selection_inv, viewport_ok.
      case_match; simpl; repeat split; try lia; by right.
  - intros s s' Hinv Hc Hsel Hp. destruct Hp.
    + destruct H as [H _]. apply selection_inv_same with s; [| | |  |done].
      * by field_of H line.
      * by field_of H start.
      * by field_of H found.
      * by field_of H loadedPages.
    + destruct Hsel as ((V1 & V2 & V3) & Hb & Hm).
      destruct Hm as [Hm|Hm]; [congruence|].
      unfold cacheHit in H0. destruct (loadedPages s) eqn:Hl; [|discriminate].
      rewrite (Hm eq_refl) in Hb. simpl in Hb.
      split; [done|]. split; [simpl; lia|]. right. simpl.
      intros E. by apply (inv_cache _ Hinv) in H0.
    + apply selection_inv_same with s; try done;
        unfold request; by case_bool_decide.
    + by apply selection_inv_same with s.
    + by apply selection_inv_same with s.
    + destruct Hsel as (Hv & Hb & Hm).
      pose proof (accepted_results f r s) as E. unfold results in E.
      assert (found (accepted f r s)
              = found s ++ indexed (length (found s)) (data r)
              ∧ loadedPages (accepted f r s) = f_page f) as [Ef El]
        by (split; congruence).
      assert (line (accepted f r s) = line s
              ∧ start (accepted f r s) = start s) as [E1 E2]
        by (unfold accepted; by destruct (cfg_cache (cfg s))).
      unfold selection_inv, viewport_ok. rewrite E1, E2, Ef, El.
      split; [done|]. split; [|by right].
      rewrite length_app. lia.
    + rewrite <- Hc in Hone. destruct Hone as [Hone|Hone]; [congruence|].
      unfold selection_inv, viewport_ok. simpl.
      repeat split; try lia. left. congruence.
    + unfold selection_inv, viewport_ok. simpl.
      repeat split; try lia. by right.
    + destruct Hsel as (Hv & Hb & Hm).
      unfold selection_inv, viewport_ok. simpl. repeat split; try lia. done.
    + destruct Hsel as (Hv & Hb & Hm). rewrite <- Hc in Hv.
      destruct (moved_selection dline dpage s Hv Hb) as (V & B & Ef & El).
      rewrite Hc in V. unfold selection_inv. by rewrite Ef, El.
    + apply selection_inv_same with s; try done;
        unfold onChangeInput; by destruct modified.
    + apply selection_inv_same with s; try done;
        unfold end_, reject, resolve; simpl;
        by destruct err as [reason|]; [destruct (error_truthy reason)|]; destruct (settled s).
    + by apply selection_inv_same with s.
    + by apply selection_inv_same with s.
    + by apply selection_inv_same with s.
    + by apply selection_inv_same with s.
Qed.

(** X1.  In a session that is given [data] or [search] but not both, and a
    positive [size], the selected line is inside the window in every
    state, and it is a line of [found] (line 0 when [found] is empty). *)
Theorem selection_stays_in_window fuzzy fuel c s :
  0 < cfg_size c →
  truthy (cfg_data c) = false ∨ truthy (cfg_search c) = false →
  reachable fuzzy fuel c s →
  0 ≤ start s ∧ start s ≤ line s < start s + cfg_size c
  ∧ line s ≤ Z.max 0 (Z.of_nat (length (found s)) - 1).
Proof.
  intros Hsize Hone Hr.
  by destruct (reachable_selection_inv _ _ _ _ Hsize Hone Hr)
    as ((H1 & H2) & H3 & _).
Qed.

Lemma selection_stays_in_window_witness :
  0 < cfg_size search_config
  ∧ (truthy (cfg_data search_config) = false
     ∨ truthy (cfg_search search_config) = false)
  ∧ reachable sample_fuzzy 2 search_config search_started
  ∧ start search_started ≤ line search_started
    < start search_started + cfg_size search_config.
Proof.
  assert (0 < cfg_size search_config) as H1 by (vm_compute; reflexivity).
  assert (truthy (cfg_data search_config) = false
          ∨ truthy (cfg_search search_config) = false) as H2
    by (left; vm_compute; reflexivity).
  assert (reachable sample_fuzzy 2 search_config search_started) as Hr
    by (apply reach_create; vm_compute; reflexivity).
  split; [exact H1|]. split; [exact H2|]. split; [exact Hr|].
  exact (proj1 (proj2 (selection_stays_in_window sample_fuzzy 2 search_config
                         search_started H1 H2 Hr))).
Defined.

(** X2.  With the selection inside the window and on a row of [found], the
    slice that [updateList] draws contains the selected item, at row
    [line - start] of the window. *)
Theorem selected_row_is_drawn size s :
  viewport_ok size s →
  line s < Z.of_nat (length (found s)) →
  js_slice (found s) (start s) (start s + size) !! Z.to_nat (line s - start s)
  = found s !! Z.to_nat (line s)
  ∧ is_Some (found s !! Z.to_nat (line s)).
Proof.
  intros (H0 & H1 & H2) Hlen. unfold js_slice.
  destruct (start s <? 0) eqn:E1; [apply Z.ltb_lt in E1; lia|].
  destruct (start s + size <? 0) eqn:E2; [apply Z.ltb_lt in E2; lia|].
  split.
  - rewrite lookup_take_lt by lia. rewrite lookup_drop. f_equal. lia.
  - apply lookup_lt_is_Some. lia.
Qed.

Lemma selected_row_is_drawn_witness :
  viewport_ok 10 page_one_shown
  ∧ line page_one_shown < Z.of_nat (length (found page_one_shown))
  ∧ js_slice (found page_one_shown) (start page_one_shown)
      (start page_one_shown + 10)
    !! Z.to_nat (line page_one_shown - start page_one_shown)
    = found page_one_shown !! Z.to_nat (line page_one_shown).
Proof.
  assert (viewport_ok 10 page_one_shown) as Hv
    by (vm_compute; repeat split; discriminate).
  assert (line page_one_shown < Z.of_nat (length (found page_one_shown)))
    as Hl by (vm_compute; reflexivity).
  split; [exact Hv|]. split; [exact Hl|].
  exact (proj1 (selected_row_is_drawn 10 page_one_shown Hv Hl)).
Defined.

(** ** What select resolves with *)

(** X3.  In a session given [data] or [search] but not both, a positive
    [size], and a matcher that ranks densely where it is used: select on a
    non-empty list resolves the promise with the item of [found] at the
    selected line, and that item's [index] is the selected line, so it is
    the row that [updateList] draws inverted. *)
Theorem select_resolves_with_selected_item fuzzy fuel c s :
  0 < cfg_size c →
  truthy (cfg_data c) = false ∨ truthy (cfg_search c) = false →
  truthy (cfg_data c) = false ∨ (∀ items ts, dense (fuzzy items ts)) →
  reachable fuzzy fuel c s →
  listening s = true → found s ≠ [] →
  ∃ it s',
    handle fuzzy fuel Select s = Some s'
    ∧ settled s' = Some (Resolved (Some it))
    ∧ found s !! Z.to_nat (line s) = Some it
    ∧ index it = Some (line s)
    ∧ listening s' = false.
Proof.
  intros Hsize Hone Hdense Hr Hl Hne.
  destruct (reachable_selection_inv _ _ _ _ Hsize Hone Hr)
    as ((V1 & V2) & Hb & _).
  pose proof (reachable_index_inv fuzzy c Hdense _ _ Hr) as (_ & Hd & _).
  pose proof (inv_listening _ (reachable_inv _ _ _ _ Hr) Hl) as Hs.
  assert (0 < Z.of_nat (length (found s))) as Hlen.
  { destruct (found s); [done|]. simpl. lia. }
  destruct (lookup_lt_is_Some_2 (found s) (Z.to_nat (line s))) as [it Hit];
    [lia|].
  exists it, (onSelect s). simpl. rewrite Hl.
  split; [done|].
  assert (js_nth (found s) (line s) = Some it) as Hnth.
  { unfold js_nth. destruct (line s <? 0) eqn:E; [apply Z.ltb_lt in E; lia|].
    exact Hit. }
  unfold onSelect, end_, resolve. rewrite Hnth. simpl. rewrite Hs. simpl.
  split; [done|]. split; [done|]. split; [|done].
  rewrite (Hd _ _ Hit). f_equal. lia.
Qed.

Lemma select_resolves_with_selected_item_witness :
  0 < cfg_size search_config
  ∧ (truthy (cfg_data search_config) = false
     ∨ truthy (cfg_search search_config) = false)
  ∧ reachable sample_fuzzy 2 search_config page_one_shown
  ∧ listening page_one_shown = true ∧ found page_one_shown ≠ []
  ∧ ∃ it s',
      handle sample_fuzzy 2 Select page_one_shown = Some s'
      ∧ settled s' = Some (Resolved (Some it))
      ∧ index it = Some (line page_one_shown).
Proof.
  assert (0 < cfg_size search_config) as H1 by (vm_compute; reflexivity).
  assert (truthy (cfg_data search_config) = false
          ∨ truthy (cfg_search search_config) = false) as H2
    by (left; vm_compute; reflexivity).
  assert (truthy (cfg_data search_config) = false
          ∨ ∀ items ts, dense (sample_fuzzy items ts)) as H3
    by (left; vm_compute; reflexivity).
  assert (reachable sample_fuzzy 2 search_config page_one_shown) as Hr.
  { eapply reach_deliver with (s := search_started) (t := 10)
      (ev := SearchResolved first_fetch page_one).
    - apply reach_create. vm_compute. reflexivity.
    - vm_compute. reflexivity. }
  assert (listening page_one_shown = true) as Hl by (vm_compute; reflexivity).
  assert (found page_one_shown ≠ []) as Hne by (vm_compute; discriminate).
  split; [exact H1|]. split; [exact H2|]. split; [exact Hr|].
  split; [exact Hl|]. split; [exact Hne|].
  destruct (select_resolves_with_selected_item sample_fuzzy 2 search_config
              page_one_shown H1 H2 H3 Hr Hl Hne)
    as (it & s' & E1 & E2 & _ & E3 & _).
  exists it, s'. auto.
Defined.

(** ** Dataset mode *)

(** X4.  In a session without a truthy [search], the paging machinery is
    never used: the collaborator is never called, nothing is marked in
    flight, pending or cached, and [count] is the length of [found] in
    every state. *)
Theorem data_mode_never_pages fuzzy fuel c s :
  truthy (cfg_search c) = false →
  reachable fuzzy fuel c s →
  searches s = [] ∧ pending s = [] ∧ loadingNextPage s = ∅
  ∧ cachedResults s = ∅ ∧ count s = Z.of_nat (length (found s)).
Proof.
  intros Hq Hr.
  enough (paging_idle s ∧ count s = Z.of_nat (length (found s)))
    as ((H1 & H2 & H3 & H4) & H5) by done.
  revert fuel s Hr. apply session_induction.
  - intros s [e|_].
    + unfold reject, paging_idle, searches.
      by destruct (settled (initial c)).
    + unfold booted, paging_idle, searches. by case_match.
  - intros s s' Hinv Hc ((I1 & I2 & I3 & I4) & I5) Hp.
    assert (∀ s0 : state,
              loadingNextPage s0 = loadingNextPage s →
              cachedResults s0 = cachedResults s → pending s0 = pending s →
              searches s0 = searches s →
              count s0 = Z.of_nat (length (found s0)) →
              paging_idle s0 ∧ count s0 = Z.of_nat (length (found s0)))
      as Hsame.
    { intros s0 E1 E2 E3 E4 E5. unfold paging_idle.
      by rewrite E1, E2, E3, E4. }
    destruct Hp; try congruence.
    + pose proof (display_only_searches _ _ H) as Es.
      destruct H as [H _].
      field_of H loadingNextPage. field_of H cachedResults.
      field_of H pending. field_of H count. field_of H found.
      apply Hsame; congruence.
    + rewrite I3 in H. by apply elem_of_nil in H.
    + rewrite I1 in H. by apply not_elem_of_empty in H.
    + rewrite I1 in H. by apply not_elem_of_empty in H.
    + by apply Hsame.
    + by apply Hsame.
    + apply Hsame; unfold moved, searches; by repeat case_match.
    + apply Hsame; try done;
        unfold onChangeInput, searches; by destruct modified.
    + apply Hsame; try done;
        unfold end_, reject, resolve, searches; simpl;
        by destruct err as [reason|]; [destruct (error_truthy reason)|]; destruct (settled s).
    + by apply Hsame.
    + by apply Hsame.
    + by apply Hsame.
    + by apply Hsame.
Qed.

Lemma data_mode_never_pages_witness :
  truthy (cfg_search data_config) = false
  ∧ reachable sample_fuzzy 2 data_config data_loaded
  ∧ searches data_loaded = []
  ∧ count data_loaded = Z.of_nat (length (found data_loaded)).
Proof.
  assert (truthy (cfg_search data_config) = false) as Hq
    by (vm_compute; reflexivity).
  assert (reachable sample_fuzzy 2 data_config data_loaded) as Hr.
  { eapply reach_deliver with (s := booted data_config) (t := 5)
      (ev := DataResolved (Some fruits)).
    - apply reach_create. vm_compute. reflexivity.
    - vm_compute. reflexivity. }
  destruct (data_mode_never_pages sample_fuzzy 2 data_config data_loaded Hq Hr)
    as (H1 & _ & _ & _ & H5).
  split; [exact Hq|]. split; [exact Hr|]. by split.
Defined.

(** ** Checking the dataset *)

Lemma keep_sublist (f : option item → option item) (items : list (option item)) :
  (∀ o it, f o = Some it → o = Some it) →
  (Some <$> omap f items) `sublist_of` items.
Proof.
  intros Hf. induction items as [|o items IH]; simpl; [constructor|].
  destruct (f o) as [it|] eqn:E; simpl.
  - rewrite <- (Hf _ _ E). by apply sublist_skip.
  - by apply sublist_cons.
Qed.

(** X5.  [checkDataset] fails with the invalid-dataset error on a value
    that is not an array.  On an array it succeeds with the elements that
    are truthy and have a non-empty label: all of them, as often as they
    occur and in their order, and nothing else. *)
Theorem checkDataset_keeps_labelled items :
  checkDataset None = inl ErrInvalidDataset
  ∧ ∃ kept,
      checkDataset (Some items) = inr kept
      ∧ Some <$> kept = List.filter labelled items
      ∧ (∀ it, it ∈ kept ↔ Some it ∈ items ∧ label it ≠ "")
      ∧ (Some <$> kept) `sublist_of` items.
Proof.
  split; [done|]. eexists. split; [reflexivity|]. split; [|split].
  - induction items as [|[x|] items IH]; simpl; [done| |exact IH].
    destruct (String.eqb (label x) ""); simpl; [exact IH|].
    f_equal. exact IH.
  - intros it. rewrite list_elem_of_omap. split.
    + intros ([x|] & Hx & E); [|done].
      destruct (String.eqb (label x) "") eqn:El; [done|].
      injection E as <-. split; [done|]. by apply String.eqb_neq.
    + intros [Hx Hl]. exists (Some it). split; [done|].
      apply String.eqb_neq in Hl. by rewrite Hl.
  - apply keep_sublist. intros [x|] it; [|done].
    destruct (String.eqb (label x) ""); [done|]. by intros [= <-].
Qed.

(** ** Errors end the session *)

Section Terminal.

Variable fuzzy : list item → list string → list item.

Lemma listening_hooked fuel c s :
  reachable fuzzy fuel c s → listening s = true → stdinHooked s = true.
Proof.
  revert fuel s.
  apply (session_induction fuzzy c
           (fun s => listening s = true → stdinHooked s = true)).
  - intros s [e|_].
    + unfold reject. by destruct (settled (initial c)).
    + unfold booted. by case_match.
  - intros s s' _ _ IH Hp. destruct Hp; try done.
    + destruct H as [H _]. field_of H listening. field_of H stdinHooked.
      by rewrite E, E0.
    + unfold request. by case_bool_decide.
    + unfold accepted. by destruct (cfg_cache (cfg s)).
    + unfold moved. by repeat case_match.
    + unfold onChangeInput. by destruct modified.
    + unfold end_, reject, resolve. simpl.
      by destruct err as [reason|]; [destruct (error_truthy reason)|]; destruct (settled s).
Qed.

(** X6.  While the listeners are attached, every error source ends the
    session: an error of stdin, a rejected or non-array dataset, a rejected
    page fetch.  The listeners are removed and the result set stays as it
    was; the promise is rejected with the reason when the reason is truthy,
    as every Error object is, and resolved with [undefined] when the reason
    is falsy, because [end] tests [if (err)]. *)
Theorem errors_end_the_session fuel c s :
  reachable fuzzy fuel c s → listening s = true →
  ∀ ev e,
    (ev = StdinError e
     ∨ (dataPending s = true ∧ ev = DataRejected e)
     ∨ (dataPending s = true ∧ ev = DataResolved None ∧ e = ErrInvalidDataset)
     ∨ (∃ f, f ∈ pending s ∧ ev = SearchRejected f e)) →
    ∃ s', handle fuzzy fuel ev s = Some s'
          ∧ listening s' = false
          ∧ results s' = results s
          ∧ (error_truthy e = true →
             settled s' = Some (Rejected e)
             ∧ effects s' = FxReject e :: FxUnlisten :: effects s)
          ∧ (error_truthy e = false →
             settled s' = Some (Resolved None)
             ∧ effects s' = FxResolve None :: FxUnlisten :: effects s).
Proof.
  intros Hr Hl ev e Hev.
  pose proof (inv_listening _ (reachable_inv _ _ _ _ Hr) Hl) as Hs.
  pose proof (listening_hooked _ _ _ Hr Hl) as Hh.
  assert (∀ s0 : state,
            settled s0 = None →
            listening (end_ (Some e) None s0) = false
            ∧ results (end_ (Some e) None s0) = results s0
            ∧ (error_truthy e = true →
               settled (end_ (Some e) None s0) = Some (Rejected e)
               ∧ effects (end_ (Some e) None s0)
                 = FxReject e :: FxUnlisten :: effects s0)
            ∧ (error_truthy e = false →
               settled (end_ (Some e) None s0) = Some (Resolved None)
               ∧ effects (end_ (Some e) None s0)
                 = FxResolve None :: FxUnlisten :: effects s0)) as Hend.
  { intros s0 H0. unfold end_, reject, resolve. simpl. rewrite H0.
    destruct (error_truthy e); simpl; repeat split; intros; done. }
  destruct Hev as [->|[[Hp ->]|[(Hp & -> & ->)|(f & Hf & ->)]]]; simpl.
  - rewrite Hh. eexists. split; [reflexivity|]. by apply Hend.
  - rewrite Hp. eexists. split; [reflexivity|].
    by apply (Hend (set_dataPending false s)).
  - rewrite Hp. eexists. split; [reflexivity|].
    by apply (Hend (set_dataPending false s)).
  - rewrite bool_decide_eq_true_2 by done.
    eexists. split; [reflexivity|].
    by apply (Hend (set_pending (removeFetch f (pending s)) s)).
Qed.

(** ** The cache is never emptied *)

Lemma prim_cache_grows s s' q :
  prim fuzzy s s' →
  is_Some (cachedResults s !! q) → is_Some (cachedResults s' !! q).
Proof.
  intros Hp. destruct Hp; try done.
  - destruct H as [H _]. field_of H cachedResults. by rewrite E.
  - unfold request. by case_bool_decide.
  - unfold accepted. destruct (cfg_cache (cfg s)); simpl; [|done].
    intros Hq. rewrite lookup_insert. by case_decide.
  - unfold moved. by repeat case_match.
  - unfold onChangeInput. by destruct modified.
  - unfold end_, reject, resolve. simpl.
    by destruct err as [reason|]; [destruct (error_truthy reason)|]; destruct (settled s).
Qed.

Lemma steps_cache_grows s s' q :
  rtc (prim fuzzy) s s' →
  is_Some (cachedResults s !! q) → is_Some (cachedResults s' !! q).
Proof.
  induction 1 as [|s1 s2 s3 H12 _ IH]; [done|].
  intros Hq. apply IH. by eapply prim_cache_grows.
Qed.

(** X7.  No event ever removes a cache entry: a query string that is
    cached stays cached for the rest of the session.  With the [cache]
    option off nothing is ever cached. *)
Theorem cache_only_grows fuel c s t ev s' :
  reachable fuzzy fuel c s →
  deliver fuzzy fuel t ev s = Some s' →
  (∀ q, is_Some (cachedResults s !! q) → is_Some (cachedResults s' !! q))
  ∧ (cfg_cache c = false → cachedResults s' = ∅).
Proof.
  intros Hr Hd. split.
  - intros q. apply steps_cache_grows.
    eapply deliver_steps; [|exact Hd]. by eapply reachable_inv.
  - intros Hoff. pose proof (reach_deliver _ _ _ _ _ _ _ Hr Hd) as Hr'.
    clear Hr Hd. revert fuel s' Hr'.
    apply (session_induction fuzzy c (fun s => cachedResults s = ∅)).
    + intros s0 [e|_].
      * unfold reject. by destruct (settled (initial c)).
      * unfold booted. by case_match.
    + intros s1 s2 _ Hc IH Hp. destruct Hp; try done.
      * destruct H as [H _]. field_of H cachedResults. congruence.
      * unfold request. by case_bool_decide.
      * unfold accepted. rewrite Hc, Hoff. done.
      * unfold moved. by repeat case_match.
      * unfold onChangeInput. by destruct modified.
      * by rewrite end_cachedResults.
Qed.

(** ** Fetches in flight *)

(** X8.  In every state of a session, no two pending fetches were started
    for the same terms object, every pending fetch has its terms object
    marked in [loadingNextPage], and the page it asks for is at least 1. *)
Theorem one_fetch_per_terms_object fuel c s :
  reachable fuzzy fuel c s →
  NoDup (f_terms <$> pending s)
  ∧ ∀ f, f ∈ pending s →
      f_terms f ∈ loadingNextPage s ∧ (1 ≤ f_page f)%nat.
Proof.
  intros [I1 I2 I3 I4 I5 I6]%reachable_inv. split; [done|].
  intros f Hf. split; [by apply I3|]. specialize (I2 f Hf). lia.
Qed.

End Terminal.

Lemma errors_end_the_session_witness :
  reachable sample_fuzzy 2 search_config search_started
  ∧ listening search_started = true
  ∧ (∃ s', handle sample_fuzzy 2
             (SearchRejected first_fetch (ErrExternal "down")) search_started
           = Some s'
           ∧ settled s' = Some (Rejected (ErrExternal "down")))
  ∧ (∃ s', handle sample_fuzzy 2
             (SearchRejected first_fetch (ErrValue JUndefined)) search_started
           = Some s'
           ∧ settled s' = Some (Resolved None)).
Proof.
  assert (reachable sample_fuzzy 2 search_config search_started) as Hr
    by (apply reach_create; vm_compute; reflexivity).
  assert (listening search_started = true) as Hl by (vm_compute; reflexivity).
  assert (first_fetch ∈ pending search_started) as Hf
    by (vm_compute; apply list_elem_of_here).
  split; [exact Hr|]. split; [exact Hl|]. split.
  - destruct (errors_end_the_session sample_fuzzy 2 search_config
                search_started Hr Hl
                (SearchRejected first_fetch (ErrExternal "down"))
                (ErrExternal "down")) as (s' & H1 & _ & _ & H2 & _).
    { right. right. right. by exists first_fetch. }
    exists s'. split; [exact H1|]. by apply H2.
  - destruct (errors_end_the_session sample_fuzzy 2 search_config
                search_started Hr Hl
                (SearchRejected first_fetch (ErrValue JUndefined))
                (ErrValue JUndefined)) as (s' & H1 & _ & _ & _ & H2).
    { right. right. right. by exists first_fetch. }
    exists s'. split; [exact H1|]. by apply H2.
Defined.

Lemma cache_only_grows_witness :
  reachable sample_fuzzy 2 search_config page_one_shown
  ∧ deliver sample_fuzzy 2 20 (Change (mkTerms 1 ["x"]) 1 true) page_one_shown
    = Some (onChangeInput (mkTerms 1 ["x"]) 1 true (set_clock 20 page_one_shown))
  ∧ ∀ q, is_Some (cachedResults page_one_shown !! q) →
         is_Some (cachedResults
                    (onChangeInput (mkTerms 1 ["x"]) 1 true
                       (set_clock 20 page_one_shown)) !! q).
Proof.
  assert (reachable sample_fuzzy 2 search_config page_one_shown) as Hr.
  { eapply reach_deliver with (s := search_started) (t := 10)
      (ev := SearchResolved first_fetch page_one).
    - apply reach_create. vm_compute. reflexivity.
    - vm_compute. reflexivity. }
  assert (deliver sample_fuzzy 2 20 (Change (mkTerms 1 ["x"]) 1 true)
            page_one_shown
          = Some (onChangeInput (mkTerms 1 ["x"]) 1 true
                    (set_clock 20 page_one_shown))) as Hd
    by (vm_compute; reflexivity).
  split; [exact Hr|]. split; [exact Hd|].
  exact (proj1 (cache_only_grows sample_fuzzy 2 search_config page_one_shown
                  20 _ _ Hr Hd)).
Defined.

Lemma one_fetch_per_terms_object_witness :
  reachable sample_fuzzy 2 search_config page_one_shown
  ∧ NoDup (f_terms <$> pending page_one_shown).
Proof.
  assert (reachable sample_fuzzy 2 search_config page_one_shown) as Hr.
  { eapply reach_deliver with (s := search_started) (t := 10)
      (ev := SearchResolved first_fetch page_one).
    - apply reach_create. vm_compute. reflexivity.
    - vm_compute. reflexivity. }
  split; [exact Hr|].
  exact (proj1 (one_fetch_per_terms_object sample_fuzzy 2 search_config
                  page_one_shown Hr)).
Defined.

(** ** What the display shows *)

Lemma append_cons_l a (s t : string) : String a s +:+ t = String a (s +:+ t).
Proof. reflexivity. Qed.

Lemma append_empty_l (t : string) : "" +:+ t = t.
Proof. reflexivity. Qed.

Lemma append_empty_r (s : string) : s +:+ "" = s.
Proof.
  induction s as [|a s IH]; [done|]. by rewrite append_cons_l, IH.
Qed.

Lemma append_assoc_string (a b c : string) : (a +:+ b) +:+ c = a +:+ (b +:+ c).
Proof.
  induction a as [|x a IH]; [done|]. by rewrite !append_cons_l, IH.
Qed.

Lemma plain_cat_all_app l1 l2 :
  plain (cat_all (l1 ++ l2)) = plain (cat_all l1) +:+ plain (cat_all l2).
Proof.
  induction l1 as [|c l1 IH]; simpl; [done|].
  by rewrite IH, append_assoc_string.
Qed.

Lemma concat_empty_cons (x : string) xs :
  String.concat "" (x :: xs) = x +:+ String.concat "" xs.
Proof.
  destruct xs; simpl; [by rewrite append_empty_r|].
  by rewrite append_empty_l.
Qed.

Lemma plain_chars (g : nat → Ascii.ascii → chalk) l :
  (∀ i c, plain (g i c) = String c "") →
  plain (cat_all (imap g l)) = String.string_of_list_ascii l.
Proof.
  revert g. induction l as [|c l IH]; intros g Hg; [done|].
  rewrite imap_cons. simpl. rewrite Hg, append_cons_l, append_empty_l.
  f_equal. apply IH. intros i c'. apply Hg.
Qed.

Lemma plain_strings (g : nat → string → chalk) l :
  (∀ i x, plain (g i x) = x) →
  plain (cat_all (imap g l)) = String.concat "" l.
Proof.
  revert g. induction l as [|x l IH]; intros g Hg; [done|].
  rewrite imap_cons, concat_empty_cons. simpl. rewrite Hg. f_equal.
  apply IH. intros i x'. apply Hg.
Qed.

(** X9.  Whatever the options and the highlights, the text of a formatted
    result, styles aside, is the item's label. *)
Theorem format_shows_label c it : plain (format c it) = label it.
Proof.
  unfold format.
  destruct (truthy (cfg_data c) || cfg_fuzzyOnSearch c); [|done].
  unfold formatFuzzyResult. rewrite plain_chars.
  - apply String.string_of_list_ascii_of_string.
  - intros i ch. by case_bool_decide.
Qed.

(** X10.  A change event writes the input line first, and the text it
    writes, styles aside, is the typed characters in order, followed by one
    blank for the cursor when the cursor is at the end. *)
Theorem input_line_shows_typed_text chars position modified s :
  ∃ text,
    effects (onChangeInput chars position modified s)
    = FxInput text :: effects s
    ∧ plain text
      = join chars
        +:+ (if bool_decide (position = Z.of_nat (length (tchars chars)))
             then " " else "").
Proof.
  unfold onChangeInput. cbv zeta. eexists. split.
  - destruct modified; reflexivity.
  - unfold join. case_bool_decide.
    + rewrite plain_cat_all_app, plain_strings; [done|].
      intros i x. by case_bool_decide.
    + rewrite append_empty_r. apply plain_strings.
      intros i x. by case_bool_decide.
Qed.

(** *** The rows of a redraw *)






(** ** How a session starts *)

(** X12.  With options that pass the checks and a [size] that is not
    negative, construction leaves an empty result set with the selection
    on row 0 and the status showing that something is loading.  Without
    [data] it has asked the collaborator for page 1 of the empty query,
    once; with [data] it has asked for nothing and waits for the
    dataset. *)
Theorem construction_starts_the_session fuel c :
  misconfigured c = false → 0 ≤ cfg_size c →
  ∃ s, create (S fuel) c = Some s
       ∧ results s = ([], 0, 0%nat, false)
       ∧ line s = 0 ∧ start s = 0 ∧ terms s = mkTerms 0 []
       ∧ statusLoading s = true ∧ settled s = None
       ∧ (truthy (cfg_data c) = true →
          dataPending s = true ∧ searches s = [] ∧ pending s = [])
       ∧ (truthy (cfg_data c) = false →
          dataPending s = false ∧ searches s = [FxSearch "" 1]
          ∧ pending s = [mkFetch 0 "" 1] ∧ loadingNextPage s = {[ 0%nat ]}).
Proof.
  unfold misconfigured, create. intros Hok Hsize.
  apply orb_false_iff in Hok as [H1 H2]. rewrite H1, H2.
  destruct (cfg_size c <? 0) eqn:E; [apply Z.ltb_lt in E; lia|].
  destruct (truthy (cfg_data c)) eqn:Hd.
  - eexists. split; [reflexivity|]. repeat split; done.
  - rewrite loadNextPage_miss by (unfold cacheHit; apply lookup_empty).
    eexists. split; [reflexivity|]. unfold request.
    rewrite bool_decide_eq_false_2 by (simpl; apply not_elem_of_empty).
    repeat split; done.
Qed.

Lemma construction_starts_the_session_witness :
  misconfigured search_config = false ∧ 0 ≤ cfg_size search_config
  ∧ ∃ s, create 1 search_config = Some s
         ∧ searches s = [FxSearch "" 1].
Proof.
  assert (misconfigured search_config = false) as H1
    by (vm_compute; reflexivity).
  assert (0 ≤ cfg_size search_config) as H2 by (vm_compute; discriminate).
  split; [exact H1|]. split; [exact H2|].
  destruct (construction_starts_the_session 0 search_config H1 H2)
    as (s & E & _ & _ & _ & _ & _ & _ & _ & Hs).
  exists s. split; [exact E|]. apply Hs. vm_compute. reflexivity.
Defined.

(** ** A new query *)

Section Refilter.

Variable fuzzy : list item → list string → list item.


(** X14.  The terms are replaced by a change event with its [modified]
    flag set and by nothing else: no other event, no timer and no
    completion of a fetch assigns them. *)
Theorem terms_change_only_by_typing fuel t ev s s' :
  deliver fuzzy fuel t ev s = Some s' →
  (∀ chars position, ev ≠ Change chars position true) →
  terms s' = terms s.
Proof.
  assert (∀ r (s0 s1 : state),
            after r (fun s2 => terms s2 = terms s0) →
            uncaughtIn r = Some s1 → terms s1 = terms s0) as Hun.
  { intros [s2|e s2|] s0 s1; cbn [after uncaughtIn]; intros H Heq;
      [congruence| |done].
    assert (s1 = set_uncaught (Some e) s2) as -> by congruence. done. }
  assert (∀ r (s0 s1 : state),
            after r (fun s2 => terms s2 = terms s0) →
            caughtByEnd r = Some s1 → terms s1 = terms s0) as Hca.
  { intros r s0 s1 H.
    apply (caughtByEnd_after r s1 (fun s2 => terms s2 = terms s0)); [done|].
    intros e s2 <-. unfold end_, reject, resolve. simpl.
      by destruct (error_truthy _); destruct (settled s2). }
  assert (∀ s0 s1, tick fuzzy fuel t s0 = Some s1 → terms s1 = terms s0)
    as Htick.
  { intros s0 s1. unfold tick, expire. destruct (halted s0); [by from_some|].
    destruct (timer s0) as [d|]; [destruct (d <=? t)|]; simpl.
    - destruct (uncaughtIn _) as [s2|] eqn:E; simpl; [|done].
      from_some. apply Hun with (s0 := s0) in E.
      + by destruct (halted s2).
      + eapply after_mono; [apply filterDataset_keeps|].
        by intros s3 (_ & _ & H & _).
    - from_some. by destruct (halted s0).
    - from_some. by destruct (halted s0). }
  assert (∀ fuel' (s0 : state),
            after (updateList fuel' s0) (fun s2 => terms s2 = terms s0))
    as Hup.
  { intros fuel' s0. eapply after_mono; [apply updateList_frame|].
    intros s2 Hf. unfold frame in Hf. congruence. }
  intros Hd Hev. unfold deliver in Hd.
  destruct (tick fuzzy fuel t s) as [s1|] eqn:E; simpl in Hd; [|done].
  apply Htick in E. rewrite <- E.
  destruct (halted s1); [by apply (inj Some) in Hd; subst|].
  clear E. revert Hd. destruct ev; simpl.
  - destruct (listening s1); from_some; [|done].
    destruct modified; [by destruct (Hev chars position)|done].
  - destruct (listening s1); [|by from_some].
    rewrite onChangeLine_unfold. intros H.
    apply Hun with (s0 := moved dline dpage s1) in H; [|apply Hup].
    rewrite H. unfold moved. by repeat case_match.
  - destruct (listening s1); from_some; [|done].
    unfold onSelect, end_, resolve. simpl. by destruct (settled s1).
  - destruct (listening s1); from_some; [|done].
    unfold onEnd, end_, resolve. simpl. by destruct (settled s1).
  - destruct (stdinHooked s1); from_some; [|done].
    unfold end_, reject, resolve. simpl.
      by destruct (error_truthy _); destruct (settled s1).
  - destruct (dataPending s1); [|by from_some].
    destruct (checkDataset items) as [e|ds].
    + from_some. unfold end_, reject, resolve. simpl.
      by destruct (error_truthy _); destruct (settled s1).
    + intros H. eapply Hca in H; [exact H|].
      eapply after_mono; [apply filterDataset_keeps|].
      by intros s3 (_ & _ & H3 & _).
  - destruct (dataPending s1); from_some; [|done].
    unfold end_, reject, resolve. simpl.
      by destruct (error_truthy _); destruct (settled s1).
  - case_bool_decide as Hf; [|by from_some].
    set (s2 := set_pending (removeFetch f (pending s1)) s1).
    intros H. eapply Hca with (s0 := s2) in H; [exact H|].
    destruct (decide (f_terms f = tid (terms s2))) as [Hc|Hc].
    + rewrite loadNextPage_then_current by done.
      eapply after_mono; [apply Hup|]. intros s3 ->.
      unfold accepted. by destruct (cfg_cache (cfg s2)).
    + by rewrite loadNextPage_then_stale.
  - case_bool_decide as Hf; from_some; [|done].
    unfold end_, reject, resolve. simpl.
      by destruct (error_truthy _); destruct (settled s1).
Qed.

End Refilter.


Lemma terms_change_only_by_typing_witness :
  deliver sample_fuzzy 2 30 (Line 1 0) typed_x
  = Some (default typed_x (deliver sample_fuzzy 2 30 (Line 1 0) typed_x))
  ∧ terms (default typed_x (deliver sample_fuzzy 2 30 (Line 1 0) typed_x))
    = terms typed_x.
Proof.
  assert (deliver sample_fuzzy 2 30 (Line 1 0) typed_x
          = Some (default typed_x (deliver sample_fuzzy 2 30 (Line 1 0) typed_x)))
    as Hd by (vm_compute; reflexivity).
  split; [exact Hd|].
  apply (terms_change_only_by_typing sample_fuzzy 2 30 (Line 1 0) typed_x _ Hd).
  intros chars position. discriminate.
Defined.

(** ** Edge cases *)

(** X15.  With options that pass the checks and a negative [size], the
    executor throws while it creates the rows: the promise is rejected with
    a [RangeError], stdin is not touched and no listener is attached. *)
Theorem negative_size_rejects fuel c :
  misconfigured c = false → cfg_size c < 0 →
  ∃ s, create fuel c = Some s
       ∧ settled s = Some (Rejected ErrRange)
       ∧ effects s = [FxReject ErrRange]
       ∧ stdinHooked s = false ∧ listening s = false.
Proof.
  unfold misconfigured, create. intros Hok Hsize.
  apply orb_false_iff in Hok as [H1 H2]. rewrite H1, H2.
  destruct (cfg_size c <? 0) eqn:E; [|apply Z.ltb_ge in E; lia].
  by eexists.
Qed.

Lemma negative_size_rejects_witness :
  misconfigured (mkConfig (-1) JUndefined JFunction false 300 true) = false
  ∧ cfg_size (mkConfig (-1) JUndefined JFunction false 300 true) < 0
  ∧ ∃ s, create 2 (mkConfig (-1) JUndefined JFunction false 300 true) = Some s
         ∧ settled s = Some (Rejected ErrRange).
Proof.
  assert (misconfigured (mkConfig (-1) JUndefined JFunction false 300 true)
          = false) as H1 by (vm_compute; reflexivity).
  assert (cfg_size (mkConfig (-1) JUndefined JFunction false 300 true) < 0)
    as H2 by (vm_compute; reflexivity).
  split; [exact H1|]. split; [exact H2|].
  destruct (negative_size_rejects 2 _ H1 H2) as (s & E & Hs & _).
  exists s. by split.
Defined.

Lemma renderRows_done pad results : ∀ i s,
  Forall (fun it => (String.length (rankString it) ≤ Z.to_nat pad)%nat
                    ∧ 0 ≤ pad) results →
  is_done (renderRows pad i results s) = true.
Proof.
  induction results as [|r rest IH]; intros i s Hall; [done|].
  apply Forall_cons in Hall as [[Hr Hp] Hall]. simpl.
  unfold renderRow, js_repeat.
  destruct (pad - Z.of_nat (String.length (rankString r)) <? 0) eqn:E.
  - apply Z.ltb_lt in E. lia.
  - simpl. by apply IH.
Qed.

Lemma renderRows_raised pad results : ∀ i s e s',
  renderRows pad i results s = Raised e s' →
  e = ErrRange
  ∧ Exists (fun it => pad < Z.of_nat (String.length (rankString it))) results.
Proof.
  induction results as [|r rest IH]; intros i s e s'; simpl; [done|].
  unfold renderRow, js_repeat.
  destruct (pad - Z.of_nat (String.length (rankString r)) <? 0) eqn:E; simpl.
  - intros [= <- <-]. split; [done|]. apply Exists_cons_hd.
    apply Z.ltb_lt in E. lia.
  - intros (He & Hex)%IH. split; [done|]. by apply Exists_cons_tl.
Qed.

(** X16.  [updateList] draws to the end when the rank of every visible
    item is no longer than [String(count)]; otherwise [" ".repeat] is
    given a negative count and the redraw throws a [RangeError].  This is
    the only exception a redraw throws. *)
Theorem redraw_throws_on_short_count s :
  (Forall (fun it => (String.length (rankString it) ≤ padLength s)%nat)
          (visible s) →
   is_done (redraw s) = true)
  ∧ (∀ e s', redraw s = Raised e s' →
       e = ErrRange
       ∧ Exists (fun it => (padLength s < String.length (rankString it))%nat)
           (visible s)).
Proof.
  unfold redraw, visible, padLength. cbv zeta.
  set (s0 := updateStatus (Some (statusText s)) (Some false) s).
  change (found s0) with (found s). change (start s0) with (start s).
  change (cfg s0) with (cfg s). change (count s0) with (count s).
  set (results := js_slice (found s) (start s) (start s + cfg_size (cfg s))).
  set (pad := String.length (pretty (count s))).
  split.
  - intros Hall.
    pose proof (renderRows_done (Z.of_nat pad) results 0 s0) as Hd.
    destruct (renderRows (Z.of_nat pad) 0 results s0); try done.
    + simpl in Hd. discriminate Hd.
      eapply Forall_impl; [exact Hall|]. intros it H. simpl in H. lia.
    + simpl in Hd. discriminate Hd.
      eapply Forall_impl; [exact Hall|]. intros it H. simpl in H. lia.
  - intros e s'.
    destruct (renderRows (Z.of_nat pad) 0 results s0) as [s1|e1 s1|] eqn:E;
      cbn [andThen]; [done| |done].
    intros [= <- <-]. apply renderRows_raised in E as [He Hex].
    split; [done|]. eapply Exists_impl; [exact Hex|].
    intros it H. simpl in H. lia.
Qed.
